(** * Shard log validator of the Valkey fuzzer: a shallow embedding

    This development embeds [src/fuzzer_engine/log_validator.py]
    (class [ShardLogValidator] and its two result records) and proves the
    properties its specification states about it.

    Layout:
    - [Py]: the Python built-ins the validator calls on strings
      ([in], [str.split], [str.strip], [int], [str] of an integer, list
      slicing for the log tail);
    - [Re]: the fragment of Python's [re] module that the validator's
      patterns live in, with a parser for pattern strings and a
      backtracking matcher;
    - [Validator]: the data model and the methods of [ShardLogValidator];
    - the theorems.

    Strings are byte strings ([string] of the Standard Library), so the
    model covers ASCII log text; sets and look-up tables are stdpp's
    [gset] and [gmap]; the one dictionary that the code iterates over is
    an insertion-ordered association list. *)

From Stdlib Require Import ZArith NArith Ascii String DecimalString DecimalPos List Bool Lia.
From stdpp Require Import base gmap strings list fin_maps.

Local Open Scope Z_scope.

(* ===================================================================== *)
(** * Exceptions *)

(** The only exceptions that the validator lets escape are those raised by
    [re.compile] on a pattern it cannot compile; [int] raising
    [ValueError] is caught where it is raised and is modelled by [option]. *)
Inductive exn : Type := re_error | overflow_error.

Inductive result (A : Type) : Type :=
| Ok (a : A)
| Raise (e : exn).
Arguments Ok {A} a.
Arguments Raise {A} e.

(** [result] is used through stdpp's monad notation [x ← m; k]. *)
Global Instance result_ret : MRet result := λ A a, Ok a.
Global Instance result_bind : MBind result := λ A B k m,
  match m with
  | Ok a => k a
  | Raise e => Raise e
  end.

(* ===================================================================== *)
(** * Python built-ins on strings *)

Module Py.

(** Code point of a character. *)
Definition ord (c : ascii) : N := N_of_ascii c.

Definition in_range (lo hi : N) (c : ascii) : bool :=
  ((lo <=? ord c) && (ord c <=? hi))%N.

Definition is_digit (c : ascii) : bool := in_range 48 57 c.
Definition is_upper (c : ascii) : bool := in_range 65 90 c.
Definition is_lower (c : ascii) : bool := in_range 97 122 c.
Definition is_alnum (c : ascii) : bool := is_digit c || is_upper c || is_lower c.

(** [str.isspace] on the ASCII range: TAB, LF, VT, FF, CR, the four
    separators 0x1c-0x1f and the space. *)
Definition is_space (c : ascii) : bool :=
  in_range 9 13 c || in_range 28 32 c.

Definition lower (c : ascii) : ascii :=
  if is_upper c then ascii_of_N (ord c + 32) else c.
Definition upper (c : ascii) : ascii :=
  if is_lower c then ascii_of_N (ord c - 32) else c.



(** [s.startswith(p)] *)
Fixpoint startswith (p s : string) : bool :=
  match p, s with
  | EmptyString, _ => true
  | String a p', String b s' => if Ascii.eqb a b then startswith p' s' else false
  | String _ _, EmptyString => false
  end.

(** [sub in s] *)
Fixpoint contains (sub s : string) : bool :=
  startswith sub s ||
  match s with
  | EmptyString => false
  | String _ s' => contains sub s'
  end.

(** [s.split(sep)] for a one-character separator: every occurrence of the
    separator cuts, empty pieces are kept, and the empty string gives one
    empty piece. *)
Fixpoint split (sep : ascii) (s : string) : list string :=
  match s with
  | EmptyString => [EmptyString]
  | String c s' =>
      if Ascii.eqb c sep then EmptyString :: split sep s'
      else match split sep s' with
           | h :: t => String c h :: t
           | [] => [String c EmptyString]
           end
  end.

Fixpoint lstrip (s : string) : string :=
  match s with
  | String c s' => if is_space c then lstrip s' else s
  | EmptyString => EmptyString
  end.

Fixpoint rstrip (s : string) : string :=
  match s with
  | EmptyString => EmptyString
  | String c s' =>
      match rstrip s' with
      | EmptyString => if is_space c then EmptyString else String c EmptyString
      | r => String c r
      end
  end.

(** [s.strip()] *)
Definition strip (s : string) : string := rstrip (lstrip s).

Definition digit_value (c : ascii) : Z := Z.of_N (ord c) - 48.

(** The digits of an integer literal as [int] reads them: decimal digits,
    single underscores allowed between two digits. [prev] tells whether
    the previous character was a digit. *)
Fixpoint int_digits (acc : Z) (prev : bool) (s : string) : option Z :=
  match s with
  | EmptyString => if prev then Some acc else None
  | String c s' =>
      if is_digit c then int_digits (10 * acc + digit_value c) true s'
      else if Ascii.eqb c "_" then
             if prev then int_digits acc false s' else None
           else None
  end.

(** The whitespace that [int] passes over at both ends: TAB, LF, VT, FF,
    CR and the space, a smaller set than that of [str.strip]. *)
Definition is_int_space (c : ascii) : bool := in_range 9 13 c || Ascii.eqb c " ".

Fixpoint int_lstrip (s : string) : string :=
  match s with
  | String c s' => if is_int_space c then int_lstrip s' else s
  | EmptyString => EmptyString
  end.

Fixpoint int_rstrip (s : string) : string :=
  match s with
  | EmptyString => EmptyString
  | String c s' =>
      match int_rstrip s' with
      | EmptyString => if is_int_space c then EmptyString else String c EmptyString
      | r => String c r
      end
  end.

(** [sys.int_max_str_digits] as the interpreter starts with it: a decimal
    literal with more digits than this is refused by [int]. *)
Definition int_max_str_digits : N := 4300.

(** The digits of a literal, as [int] counts them against the limit:
    leading zeros count, underscores do not. *)
Fixpoint digit_count (s : string) : N :=
  match s with
  | EmptyString => 0
  | String c s' => if is_digit c then N.succ (digit_count s') else digit_count s'
  end%N.

(** The literal after the sign: refused when it has too many digits. *)
Definition int_literal (d : string) : option Z :=
  if (int_max_str_digits <? digit_count d)%N then None else int_digits 0 false d.

(** [int(s)]: surrounding whitespace is dropped, one sign is allowed;
    [None] stands for [ValueError]. *)
Definition int (s : string) : option Z :=
  match int_rstrip (int_lstrip s) with
  | String "+" d => int_literal d
  | String "-" d => Z.opp <$> int_literal d
  | d => int_literal d
  end.

(** [str(n)] for an integer: its decimal form. The interpreter writes it
    for integers of up to [int_max_str_digits] digits, which covers every
    count the validator prints. *)
Definition str (n : Z) : string := NilZero.string_of_int (Z.to_int n).

(** [l[-n:] if len(l) > n else l]; the slice [l[-0:]] is the whole list. *)
Definition last_n {A} (n : nat) (l : list A) : list A :=
  if (n <? length l)%nat
  then match n with O => l | _ => drop (length l - n) l end
  else l.

End Py.

(* ===================================================================== *)
(** * The fragment of Python's [re] used by the validator *)

(** Patterns stay the strings the source writes; [Re.compile] parses them.
    The fragment has literal characters, [.], [\d], an escaped punctuation
    character, character sets of characters and ranges ([[a-f0-9]]), the
    quantifiers [*], [+], [?] and [{n}] on a one-character atom, and
    capture groups that are not nested and not repeated. Every pattern the
    validator writes is in it. A pattern outside of it gives [Raise
    re_error]: for an invalid pattern that is what Python does; a valid
    pattern that uses other syntax is not modelled. *)

Module Re.

(** A set of characters. *)
Inductive cset : Type :=
| CsAny                                   (* [.]: anything but a newline *)
| CsDigit                                 (* [\d] *)
| CsChar (c : ascii)                      (* a literal character *)
| CsSet (ranges : list (ascii * ascii)).  (* [[...]], a character is [(c, c)] *)

Inductive quant : Type := QOne | QStar | QPlus | QOpt | QRep (n : nat).

Inductive item : Type :=
| Atom (cs : cset) (q : quant)
| Open                                    (* [(] *)
| Close.                                  (* [)] *)

Definition regex : Type := list item.

(** ** Parsing a pattern *)

Inductive mode : Type :=
| MNormal
| MEscape                                            (* after a backslash *)
| MSet (ranges : list (ascii * ascii)) (lo : option ascii) (dash : bool)
                                                     (* inside [[ ]] *)
| MCount (n : option N).                             (* inside [{ }] *)

(** A quantifier applies to the atom before it, which must not have one. *)
Definition quantify (q : quant) (acc : list item) : option (list item) :=
  match acc with
  | Atom cs QOne :: acc' => Some (Atom cs q :: acc')
  | _ => None
  end.

Definition digit_value (c : ascii) : N := Py.ord c - 48.

(** The largest repetition count of the [re] module, not reached. *)
Definition MAXREPEAT : N := 4294967295.

(** [acc] holds the items read so far, last first; [ing] tells whether a
    group is open. *)
Fixpoint parse (m : mode) (acc : list item) (ing : bool) (s : string) : result regex :=
  match s with
  | EmptyString =>
      match m with
      | MNormal => if ing then Raise re_error else Ok (rev acc)
      | _ => Raise re_error
      end
  | String c s' =>
      match m with
      | MNormal =>
          if Ascii.eqb c "\" then parse MEscape acc ing s'
          else if Ascii.eqb c "." then parse MNormal (Atom CsAny QOne :: acc) ing s'
          else if Ascii.eqb c "[" then parse (MSet [] None false) acc ing s'
          else if Ascii.eqb c "{" then parse (MCount None) acc ing s'
          else if Ascii.eqb c "(" then
            if ing then Raise re_error else parse MNormal (Open :: acc) true s'
          else if Ascii.eqb c ")" then
            if ing then parse MNormal (Close :: acc) false s' else Raise re_error
          else if Ascii.eqb c "*" then
            match quantify QStar acc with
            | Some acc' => parse MNormal acc' ing s' | None => Raise re_error end
          else if Ascii.eqb c "+" then
            match quantify QPlus acc with
            | Some acc' => parse MNormal acc' ing s' | None => Raise re_error end
          else if Ascii.eqb c "?" then
            match quantify QOpt acc with
            | Some acc' => parse MNormal acc' ing s' | None => Raise re_error end
          else if Ascii.eqb c "^" || Ascii.eqb c "$" || Ascii.eqb c "|"
                  || Ascii.eqb c "]" || Ascii.eqb c "}" then Raise re_error
          else parse MNormal (Atom (CsChar c) QOne :: acc) ing s'
      | MEscape =>
          if Ascii.eqb c "d" then parse MNormal (Atom CsDigit QOne :: acc) ing s'
          else if Py.is_alnum c || negb (Py.in_range 33 126 c) then Raise re_error
          else parse MNormal (Atom (CsChar c) QOne :: acc) ing s'
      | MSet rs lo dash =>
          if Ascii.eqb c "]" then
            match lo, dash with
            | Some l, false => parse MNormal (Atom (CsSet (rev ((l, l) :: rs))) QOne :: acc) ing s'
            | None, false =>
                match rs with
                | [] => Raise re_error
                | _ => parse MNormal (Atom (CsSet (rev rs)) QOne :: acc) ing s'
                end
            | _, true => Raise re_error
            end
          else if Ascii.eqb c "\" || Ascii.eqb c "[" || Ascii.eqb c "^" then Raise re_error
          else if Ascii.eqb c "-" then
            match lo, dash with
            | Some l, false => parse (MSet rs lo true) acc ing s'
            | _, _ => Raise re_error
            end
          else
            match lo, dash with
            | Some l, true =>
                if (Py.ord l <=? Py.ord c)%N
                then parse (MSet ((l, c) :: rs) None false) acc ing s'
                else Raise re_error
            | Some l, false => parse (MSet ((l, l) :: rs) (Some c) false) acc ing s'
            | None, _ => parse (MSet rs (Some c) false) acc ing s'
            end
      | MCount n =>
          if Py.is_digit c then
            parse (MCount (Some (10 * default 0 n + digit_value c)%N)) acc ing s'
          else if Ascii.eqb c "}" then
            match n with
            | Some k =>
                if (MAXREPEAT <=? k)%N then Raise overflow_error
                else match quantify (QRep (N.to_nat k)) acc with
                     | Some acc' => parse MNormal acc' ing s'
                     | None => Raise re_error
                     end
            | None => Raise re_error
            end
          else Raise re_error
      end
  end.

(** [re.compile(pattern)] *)
Definition compile (pattern : string) : result regex := parse MNormal [] false pattern.
Global Arguments compile : simpl never.

(** ** Matching *)

Definition in_set (ranges : list (ascii * ascii)) (c : ascii) : bool :=
  existsb (λ r, (Py.ord (fst r) <=? Py.ord c)%N && (Py.ord c <=? Py.ord (snd r))%N) ranges.

Definition test (cs : cset) (c : ascii) : bool :=
  match cs with
  | CsAny => negb (Ascii.eqb c "010")
  | CsDigit => Py.is_digit c
  | CsChar a => Ascii.eqb a c
  | CsSet rs => in_set rs c
  end.

(** Under [re.IGNORECASE] a character is tried in both cases. *)
Definition test_flag (ignorecase : bool) (cs : cset) (c : ascii) : bool :=
  if ignorecase
  then test cs (Py.lower c) || test cs (Py.upper (Py.lower c))
  else test cs c.

(** The positions of the group parentheses passed on the way, in order. *)
Definition marks : Type := list nat.

Section Matcher.
Variable ignorecase : bool.

(** The rest of the pattern, to be matched on what is left of the line
    from the given position. *)
Definition cont : Type := string → nat → option marks.

Definition one (cs : cset) (k : cont) : cont := λ s pos,
  match s with
  | String c s' => if test_flag ignorecase cs c then k s' (S pos) else None
  | EmptyString => None
  end.

(** Greedy: take the longest run first, give back one character at a
    time. *)
Fixpoint star (cs : cset) (k : cont) (s : string) (pos : nat) : option marks :=
  match s with
  | String c s' =>
      if test_flag ignorecase cs c then
        match star cs k s' (S pos) with
        | Some m => Some m
        | None => k s pos
        end
      else k s pos
  | EmptyString => k s pos
  end.

Definition opt (cs : cset) (k : cont) : cont := λ s pos,
  match one cs k s pos with
  | Some m => Some m
  | None => k s pos
  end.

Fixpoint rep (n : nat) (cs : cset) (k : cont) : cont :=
  match n with
  | O => k
  | S n' => one cs (rep n' cs k)
  end.

(** [pattern.match] at one position. *)
Fixpoint match_here (r : regex) : cont :=
  match r with
  | [] => λ _ _, Some []
  | Atom cs QOne :: r' => one cs (match_here r')
  | Atom cs QStar :: r' => star cs (match_here r')
  | Atom cs QPlus :: r' => one cs (star cs (match_here r'))
  | Atom cs QOpt :: r' => opt cs (match_here r')
  | Atom cs (QRep n) :: r' => rep n cs (match_here r')
  | Open :: r' | Close :: r' =>
      λ s pos, cons pos <$> match_here r' s pos
  end.

(** [pattern.search]: the leftmost position with a match. *)
Fixpoint search_from (r : regex) (s : string) (pos : nat) : option marks :=
  match match_here r s pos with
  | Some m => Some m
  | None =>
      match s with
      | String _ s' => search_from r s' (S pos)
      | EmptyString => None
      end
  end.
End Matcher.

(** A match object: the line and the group marks. *)
Record Match : Type := { m_string : string; m_marks : marks }.

(** [regex.search(line)] of a compiled pattern; [None] is Python's [None]. *)
Definition search_compiled (ignorecase : bool) (r : regex) (line : string) : option Match :=
  (λ m, {| m_string := line; m_marks := m |}) <$> search_from ignorecase r line 0.

(** [re.compile(pattern, re.IGNORECASE).search(line)] and
    [re.search(pattern, line)], by the flag. *)
Definition search (ignorecase : bool) (pattern line : string) : result (option Match) :=
  r ← compile pattern; mret (search_compiled ignorecase r line).

(** [match.group(1)] for a pattern with one group. *)
Definition group1 (m : Match) : string :=
  match m_marks m with
  | o :: c :: _ => String.substring o (c - o) (m_string m)
  | _ => EmptyString
  end.

End Re.

(* ===================================================================== *)
(** * The data model *)

(** Modelled from the spec: the record [NodeInfo] of the harness's [models]
    module, which the validator imports and which is not among the
    sources. The fields are those of the spec's data model, all of which
    the validator reads; an absent [cluster_node_id] is [None]. *)
Module NodeInfo.
Record t : Type := mk {
  node_id : string;
  host : string;
  port : Z;
  cluster_node_id : option string;
  shard_id : Z;
  role : string;
  log_file : string
}.
End NodeInfo.

(** Modelled from the spec: the record [Operation] of the same module. Of
    the enumeration in its [type] the validator reads the [value] only,
    which [type_value] holds. *)
Module Operation.
Record t : Type := mk {
  type_value : string;
  target_node : string
}.
End Operation.

Module LogFinding.
Record t : Type := mk {
  node_id : string;
  shard_id : Z;
  severity : string;
  message : string;
  log_line : string
}.

Global Instance eq_dec : EqDecision t.
Proof. solve_decision. Defined.
End LogFinding.

Module LogValidationResult.
Record t : Type := mk {
  success : bool;
  findings : list LogFinding.t;
  shards_checked : nat
}.
End LogValidationResult.

(** ** Dictionaries that are iterated over

    A Python [dict] keeps its keys in the order of their first insertion,
    and an assignment to a key that is present replaces the value where it
    stands. *)
Module Dict.
Definition t (V : Type) : Type := list (string * V).

Fixpoint set {V} (d : t V) (k : string) (v : V) : t V :=
  match d with
  | [] => [(k, v)]
  | (k', v') :: d' =>
      if String.eqb k' k then (k, v) :: d' else (k', v') :: set d' k v
  end.

Fixpoint get {V} (d : t V) (k : string) : option V :=
  match d with
  | [] => None
  | (k', v') :: d' => if String.eqb k' k then Some v' else get d' k
  end.

Definition items {V} (d : t V) : list (string * V) := d.
End Dict.

(** ** The log files

    What the validator sees of the file system: a path has no file, has
    one that cannot be opened or read, or has one whose [readlines()] is
    the given list. *)
Inductive file : Type :=
| Missing
| Unreadable
| Lines (all_lines : list string).

Definition filesystem : Type := string → file.

(** A writer for the body of a [try] block that appends to [findings]:
    what was appended before an exception stays appended. *)
Module Appending.
Record t (A : Type) : Type := mk { out : list LogFinding.t; res : result A }.
Arguments mk {A} out res.
Arguments out {A} _.
Arguments res {A} _.

Global Instance ret : MRet t := λ A a, mk [] (Ok a).
Global Instance bind : MBind t := λ A B k m,
  match res m with
  | Ok a => mk (out m ++ out (k a)) (res (k a))
  | Raise e => mk (out m) (Raise e)
  end.

(** [findings.append(f)] *)
Definition append (f : LogFinding.t) : t unit := mk [f] (Ok ()).

(** A call that appends nothing itself. *)
Definition lift {A} (r : result A) : t A := mk [] r.

(** [for x in xs: body(x)] *)
Fixpoint for_each {A} (xs : list A) (body : A → t unit) : t unit :=
  match xs with
  | [] => mret ()
  | x :: xs' => _ ← body x; for_each xs' body
  end.

(** [try: w except Exception: pass]: the findings appended so far. *)
Definition try_except {A} (w : t A) : list LogFinding.t := out w.
End Appending.

(* ===================================================================== *)
(** * [ShardLogValidator] *)

Abbreviation NodeInfo := NodeInfo.t.
Abbreviation Operation := Operation.t.
Abbreviation LogFinding := LogFinding.t.
Abbreviation LogValidationResult := LogValidationResult.t.

(** The patterns set up by [__init__]. *)
Definition failover_promotion_patterns : list string :=
  [ "Failover election won";
    "configEpoch set to \d+ after successful failover";
    "Failover auth granted" ].

Definition failover_error_patterns : list string :=
  [ "Failover attempt expired";
    "Manual failover timed out";
    "Failover election in progress for epoch 0" ].

Definition replication_issue_patterns : list string :=
  [ "I'm a sub-replica! Reconfiguring myself" ].

(** The two patterns given to [re.search] directly, without a flag. *)
Definition shard_formation_pattern : string :=
  "is now part of shard ([a-f0-9]{40})".
Definition self_promotion_pattern : string :=
  "Setting myself to primary in shard ([a-f0-9]{40})".

(** [f"Marking node {killed_cluster_id}.*as failing.*quorum reached"]: the
    identifier is spliced into the pattern as it is. *)
Definition quorum_pattern (killed_cluster_id : string) : string :=
  "Marking node " +:+ killed_cluster_id +:+ ".*as failing.*quorum reached".

(** [f"{node.host}:{node.port}"] *)
Definition node_addr (node : NodeInfo) : string :=
  NodeInfo.host node +:+ ":" +:+ Py.str (NodeInfo.port node).

(** Truth value of an optional integer: [None] and [0] are false. *)
Definition truthy_int (o : option Z) : bool :=
  match o with
  | Some z => negb (z =? 0)
  | None => false
  end.

(** [a or b] on optional integers. *)
Definition py_or (a b : option Z) : option Z := if truthy_int a then a else b.

(** The three look-up tables; in a dict comprehension a later node
    replaces an earlier one with the same key. *)
Definition node_id_to_shard (cluster_nodes : list NodeInfo) : gmap string Z :=
  foldl (λ d node, <[NodeInfo.node_id node := NodeInfo.shard_id node]> d) ∅ cluster_nodes.

Definition port_to_shard (cluster_nodes : list NodeInfo) : gmap string Z :=
  foldl (λ d node, <[Py.str (NodeInfo.port node) := NodeInfo.shard_id node]> d) ∅ cluster_nodes.

Definition cluster_id_to_shard (cluster_nodes : list NodeInfo) : gmap string Z :=
  foldl (λ d node,
           match NodeInfo.cluster_node_id node with
           | Some (String _ _ as id) => <[id := NodeInfo.shard_id node]> d
           | _ => d
           end) ∅ cluster_nodes.

(** [node_id_to_shard.get(t) or port_to_shard.get(t) or cluster_id_to_shard.get(t)] *)
Definition lookup_target (cluster_nodes : list NodeInfo) (target : string) : option Z :=
  py_or (py_or (node_id_to_shard cluster_nodes !! target)
               (port_to_shard cluster_nodes !! target))
        (cluster_id_to_shard cluster_nodes !! target).

(** One turn of the loop over the operations in [_get_affected_shards]. *)
Definition affected_by_operation (cluster_nodes : list NodeInfo)
    (affected_shards : gset Z) (op : Operation) : gset Z :=
  if Py.contains "shard-" (Operation.target_node op) then
    match Py.split "-" (Operation.target_node op) with
    | part0 :: part1 :: _ :: _ =>
        if String.eqb part0 "shard" then
          match Py.int part1 with
          | Some shard_id => affected_shards ∪ {[shard_id]}
          | None => affected_shards              (* ValueError: pass *)
          end
        else affected_shards
    | _ => affected_shards
    end
  else
    match lookup_target cluster_nodes (Operation.target_node op) with
    | Some shard_id => affected_shards ∪ {[shard_id]}
    | None => affected_shards
    end.

(** One turn of the loop over the nodes in [_get_affected_shards]. *)
Definition affected_by_chaos (nodes_killed_by_chaos : gset string)
    (affected_shards : gset Z) (node : NodeInfo) : gset Z :=
  if bool_decide (node_addr node ∈ nodes_killed_by_chaos)
  then affected_shards ∪ {[NodeInfo.shard_id node]}
  else affected_shards.

Definition _get_affected_shards (operations : list Operation)
    (nodes_killed_by_chaos : gset string) (cluster_nodes : list NodeInfo) : gset Z :=
  let affected_shards := foldl (affected_by_operation cluster_nodes) ∅ operations in
  foldl (affected_by_chaos nodes_killed_by_chaos) affected_shards cluster_nodes.

Fixpoint _shard_had_failover (shard_id : Z) (operations : list Operation)
    (cluster_nodes : list NodeInfo) : bool :=
  match operations with
  | [] => false
  | op :: rest =>
      if negb (String.eqb (Operation.type_value op) "failover")
      then _shard_had_failover shard_id rest cluster_nodes
      else if Py.contains "shard-" (Operation.target_node op) then
        match Py.split "-" (Operation.target_node op) with
        | part0 :: part1 :: _ :: _ =>
            if String.eqb part0 "shard" then
              match Py.int part1 with
              | Some op_shard_id =>
                  if op_shard_id =? shard_id then true
                  else _shard_had_failover shard_id rest cluster_nodes
              | None => _shard_had_failover shard_id rest cluster_nodes
              end
            else _shard_had_failover shard_id rest cluster_nodes
        | _ => _shard_had_failover shard_id rest cluster_nodes
        end
      else
        match lookup_target cluster_nodes (Operation.target_node op) with
        | Some op_shard_id =>
            if op_shard_id =? shard_id then true
            else _shard_had_failover shard_id rest cluster_nodes
        | None => _shard_had_failover shard_id rest cluster_nodes
        end
  end.

(** Whether a search found a match. *)
Definition found (m : option Re.Match) : bool :=
  match m with Some _ => true | None => false end.

Definition _has_pattern (log_lines : list string) (pattern : string) : result bool :=
  regex ← Re.compile pattern;
  mret (existsb (λ line, found (Re.search_compiled true regex line)) log_lines).

Definition _find_all_patterns (log_lines : list string) (pattern : string)
  : result (list string) :=
  regex ← Re.compile pattern;
  mret (Py.strip <$>
        filter (λ line, found (Re.search_compiled true regex line) = true) log_lines).

(** [any(self._has_pattern(log_lines, pattern) for pattern in patterns)] *)
Fixpoint any_has_pattern (log_lines : list string) (patterns : list string) : result bool :=
  match patterns with
  | [] => mret false
  | pattern :: rest =>
      b ← _has_pattern log_lines pattern;
      if b : bool then mret true else any_has_pattern log_lines rest
  end.

(** The finding of [_validate_failure_detection]. *)
Definition dquote : string := String "034"%char EmptyString.

Definition detection_finding (killed_addr : string) : LogFinding :=
  LogFinding.mk killed_addr (-1) "error"
    ("Cluster did not detect failure of killed node " +:+ killed_addr +:+
     " (no " +:+ dquote +:+ "quorum reached" +:+ dquote +:+ " message found)")
    "".

Section ShardLogValidator.

(** The log files at the time of the run. *)
Variable fs : filesystem.

(** The order in which Python goes through a set of integers. It is the
    order of the set's hash table, which the model leaves open. *)
Variable set_iter : gset Z → list Z.

Definition os_path_exists (path : string) : bool :=
  match fs path with
  | Missing => false
  | _ => true
  end.

(** Any failure to open or read is caught and gives the empty list. *)
Definition _read_log_tail (log_file : string) (lines : nat) : list string :=
  match fs log_file with
  | Lines all_lines => Py.last_n lines all_lines
  | _ => []
  end.

(** ** [_validate_failure_detection] *)

Definition killed_node_ids (cluster_nodes : list NodeInfo)
    (nodes_killed_by_chaos : gset string) : Dict.t string :=
  foldl (λ d node,
           if bool_decide (node_addr node ∈ nodes_killed_by_chaos) then
             match NodeInfo.cluster_node_id node with
             | Some (String _ _ as id) => Dict.set d (node_addr node) id
             | _ => d
             end
           else d) [] cluster_nodes.

(** The inner loop: does a node that was not killed, and whose log file
    exists, show the pattern in its last 200 lines? *)
Fixpoint detected_by (nodes_killed_by_chaos : gset string) (pattern : string)
    (cluster_nodes : list NodeInfo) : result bool :=
  match cluster_nodes with
  | [] => mret false
  | node :: rest =>
      if bool_decide (node_addr node ∈ nodes_killed_by_chaos)
      then detected_by nodes_killed_by_chaos pattern rest
      else if negb (os_path_exists (NodeInfo.log_file node))
      then detected_by nodes_killed_by_chaos pattern rest
      else
        b ← _has_pattern (_read_log_tail (NodeInfo.log_file node) 200) pattern;
        if b : bool then mret true
        else detected_by nodes_killed_by_chaos pattern rest
  end.

Fixpoint detection_loop (cluster_nodes : list NodeInfo)
    (nodes_killed_by_chaos : gset string) (items : list (string * string))
  : result (list LogFinding) :=
  match items with
  | [] => mret []
  | (killed_addr, killed_cluster_id) :: rest =>
      detected ← detected_by nodes_killed_by_chaos
                   (quorum_pattern killed_cluster_id) cluster_nodes;
      findings ← detection_loop cluster_nodes nodes_killed_by_chaos rest;
      mret (if detected : bool then findings
            else detection_finding killed_addr :: findings)
  end.

Definition _validate_failure_detection (cluster_nodes : list NodeInfo)
    (nodes_killed_by_chaos : gset string) : result (list LogFinding) :=
  if bool_decide (nodes_killed_by_chaos = ∅) then mret []
  else detection_loop cluster_nodes nodes_killed_by_chaos
         (Dict.items (killed_node_ids cluster_nodes nodes_killed_by_chaos)).

(** ** [_validate_failover] *)

(** Pass A, one node: the first line of the 500-line tail that tells the
    Valkey shard the node is part of. *)
Fixpoint first_shard_formation (log_lines : list string) : result (option string) :=
  match log_lines with
  | [] => mret None
  | line :: rest =>
      m ← Re.search false shard_formation_pattern line;
      match m with
      | Some m => mret (Some (Re.group1 m))
      | None => first_shard_formation rest
      end
  end.

Fixpoint shard_table (affected_nodes : list NodeInfo)
    (valkey_shard_to_our_shard : gmap string Z) : result (gmap string Z) :=
  match affected_nodes with
  | [] => mret valkey_shard_to_our_shard
  | node :: rest =>
      let log_lines :=
        if os_path_exists (NodeInfo.log_file node)
        then _read_log_tail (NodeInfo.log_file node) 500 else [] in
      id ← first_shard_formation log_lines;
      match id with
      | Some valkey_shard_id =>
          shard_table rest
            (<[valkey_shard_id := NodeInfo.shard_id node]> valkey_shard_to_our_shard)
      | None => shard_table rest valkey_shard_to_our_shard
      end
  end.

Definition no_promotion_finding (node : NodeInfo) : LogFinding :=
  LogFinding.mk (NodeInfo.node_id node) (NodeInfo.shard_id node) "warning"
    "Primary has no failover promotion messages in recent logs" "".

Definition wrong_shard_finding (node : NodeInfo) (expected_shard_id : Z)
    (line : string) : LogFinding :=
  LogFinding.mk (NodeInfo.node_id node) (NodeInfo.shard_id node) "error"
    ("Node promoted to wrong shard: expected " +:+ Py.str (NodeInfo.shard_id node) +:+
     ", got " +:+ Py.str expected_shard_id)
    (Py.strip line).

Definition failover_error_finding (node : NodeInfo) (line : string) : LogFinding :=
  LogFinding.mk (NodeInfo.node_id node) (NodeInfo.shard_id node) "error"
    "Failover error detected" line.

Definition replication_issue_finding (node : NodeInfo) (line : string) : LogFinding :=
  LogFinding.mk (NodeInfo.node_id node) (NodeInfo.shard_id node) "warning"
    "Replication topology issue detected" line.

(** The loop that looks for the line in which a promoted node names its
    shard; it stops at the first such line. *)
Fixpoint check_promoted_shard (valkey_shard_to_our_shard : gmap string Z)
    (node : NodeInfo) (log_lines : list string) : Appending.t unit :=
  match log_lines with
  | [] => mret ()
  | line :: rest =>
      m ← Appending.lift (Re.search false self_promotion_pattern line);
      match m with
      | Some m =>
          match valkey_shard_to_our_shard !! Re.group1 m with
          | Some expected_shard_id =>
              if negb (expected_shard_id =? NodeInfo.shard_id node)
              then Appending.append (wrong_shard_finding node expected_shard_id line)
              else mret ()
          | None => mret ()
          end
      | None => check_promoted_shard valkey_shard_to_our_shard node rest
      end
  end.

(** [for pattern in patterns: matches = ...; if matches: findings.append(...)] *)
Definition report_first_match (log_lines : list string) (patterns : list string)
    (finding : string → LogFinding) : Appending.t unit :=
  Appending.for_each patterns (λ pattern,
    matches ← Appending.lift (_find_all_patterns log_lines pattern);
    match matches with
    | first :: _ => Appending.append (finding first)
    | [] => mret ()
    end).

(** Pass B, the body of the [try] block for one node. *)
Definition check_node (valkey_shard_to_our_shard : gmap string Z) (node : NodeInfo)
  : Appending.t unit :=
  let log_lines := _read_log_tail (NodeInfo.log_file node) 200 in
  _ ← (if String.eqb (NodeInfo.role node) "primary" then
         has_promotion ← Appending.lift
           (any_has_pattern log_lines failover_promotion_patterns);
         if negb has_promotion
         then Appending.append (no_promotion_finding node)
         else check_promoted_shard valkey_shard_to_our_shard node log_lines
       else mret ());
  has_promotion_any ← Appending.lift
    (any_has_pattern log_lines failover_promotion_patterns);
  _ ← (if negb has_promotion_any
       then report_first_match log_lines failover_error_patterns
              (failover_error_finding node)
       else mret ());
  report_first_match log_lines replication_issue_patterns
    (replication_issue_finding node).

(** Pass B, one node: a node without a log file is passed over. *)
Definition validate_node (valkey_shard_to_our_shard : gmap string Z) (node : NodeInfo)
  : list LogFinding :=
  if negb (os_path_exists (NodeInfo.log_file node)) then []
  else Appending.try_except (check_node valkey_shard_to_our_shard node).

Definition _validate_failover (affected_nodes : list NodeInfo) : result (list LogFinding) :=
  valkey_shard_to_our_shard ← shard_table affected_nodes ∅;
  mret (flat_map (validate_node valkey_shard_to_our_shard) affected_nodes).

(** ** [validate_affected_shards] *)

(** The loop over the affected shards. *)
Fixpoint failover_findings (cluster_nodes : list NodeInfo) (operations : list Operation)
    (shards_with_primary_killed : gset Z) (shards : list Z) : result (list LogFinding) :=
  match shards with
  | [] => mret []
  | shard_id :: rest =>
      let nodes_in_shard :=
        filter (λ n, NodeInfo.shard_id n = shard_id) cluster_nodes in
      let had_explicit_failover :=
        _shard_had_failover shard_id operations cluster_nodes in
      let had_primary_killed := bool_decide (shard_id ∈ shards_with_primary_killed) in
      here ← (if had_explicit_failover || had_primary_killed
              then _validate_failover nodes_in_shard else mret []);
      later ← failover_findings cluster_nodes operations shards_with_primary_killed rest;
      mret (here ++ later)
  end.

Definition validate_affected_shards (cluster_nodes : list NodeInfo)
    (operations : list Operation) (nodes_killed_by_chaos : gset string)
    (shards_with_primary_killed : gset Z) : result LogValidationResult :=
  let affected_shards :=
    _get_affected_shards operations nodes_killed_by_chaos cluster_nodes in
  detection ← _validate_failure_detection cluster_nodes nodes_killed_by_chaos;
  failover ← failover_findings cluster_nodes operations shards_with_primary_killed
               (set_iter affected_shards);
  let findings := detection ++ failover in
  let success :=
    (length (filter (λ f, LogFinding.severity f = "error") findings) =? 0)%nat in
  mret (LogValidationResult.mk success findings (size affected_shards)).

End ShardLogValidator.

(* ===================================================================== *)
(** * Closed forms

    What the loops of [_validate_failure_detection] and [_validate_failover]
    compute, written without the exception and the writer; the lemmas of
    the next part prove them equal to the definitions above. *)

(** The pattern compiles and, with [re.IGNORECASE], finds a match in the line. *)
Definition line_matches (pattern line : string) : bool :=
  match Re.search true pattern line with
  | Ok (Some _) => true
  | _ => false
  end.

Definition has_line (pattern : string) (log_lines : list string) : bool :=
  existsb (line_matches pattern) log_lines.

Definition matching_lines (pattern : string) (log_lines : list string) : list string :=
  Py.strip <$> filter (λ line, line_matches pattern line = true) log_lines.

Definition compiles (pattern : string) : Prop := ∃ regex, Re.compile pattern = Ok regex.

(** A character that stands for itself in a pattern. *)
Definition plain (s : string) : Prop :=
  Forall (λ c, Py.is_alnum c = true) (list_ascii_of_string s).

Section ClosedForms.
Variable fs : filesystem.

(** Some node that was not killed shows the pattern in its last 200 lines. *)
Definition quorum_evidence (nodes_killed_by_chaos : gset string) (pattern : string)
    (cluster_nodes : list NodeInfo) : bool :=
  existsb (λ node,
             negb (bool_decide (node_addr node ∈ nodes_killed_by_chaos))
             && has_line pattern (_read_log_tail fs (NodeInfo.log_file node) 200))
          cluster_nodes.

Definition detection_findings (cluster_nodes : list NodeInfo)
    (nodes_killed_by_chaos : gset string) (items : list (string * string))
  : list LogFinding :=
  flat_map (λ item,
              if quorum_evidence nodes_killed_by_chaos (quorum_pattern (snd item)) cluster_nodes
              then [] else [detection_finding (fst item)]) items.

Definition has_promotion (log_lines : list string) : bool :=
  existsb (λ pattern, has_line pattern log_lines) failover_promotion_patterns.

Fixpoint promoted_shard_findings (valkey_shard_to_our_shard : gmap string Z)
    (node : NodeInfo) (log_lines : list string) : list LogFinding :=
  match log_lines with
  | [] => []
  | line :: rest =>
      match Re.search false self_promotion_pattern line with
      | Ok (Some m) =>
          match valkey_shard_to_our_shard !! Re.group1 m with
          | Some expected_shard_id =>
              if negb (expected_shard_id =? NodeInfo.shard_id node)
              then [wrong_shard_finding node expected_shard_id line] else []
          | None => []
          end
      | _ => promoted_shard_findings valkey_shard_to_our_shard node rest
      end
  end.

Definition first_match_findings (log_lines : list string) (patterns : list string)
    (finding : string → LogFinding) : list LogFinding :=
  flat_map (λ pattern,
              match matching_lines pattern log_lines with
              | first :: _ => [finding first]
              | [] => []
              end) patterns.

Definition node_findings (valkey_shard_to_our_shard : gmap string Z) (node : NodeInfo)
  : list LogFinding :=
  let log_lines := _read_log_tail fs (NodeInfo.log_file node) 200 in
  (if String.eqb (NodeInfo.role node) "primary" then
     if negb (has_promotion log_lines) then [no_promotion_finding node]
     else promoted_shard_findings valkey_shard_to_our_shard node log_lines
   else [])
  ++ (if negb (has_promotion log_lines)
      then first_match_findings log_lines failover_error_patterns
             (failover_error_finding node)
      else [])
  ++ first_match_findings log_lines replication_issue_patterns
       (replication_issue_finding node).
End ClosedForms.

(** The shard that one operation adds, if any. *)
Definition operation_shard (cluster_nodes : list NodeInfo) (op : Operation) : option Z :=
  if Py.contains "shard-" (Operation.target_node op) then
    match Py.split "-" (Operation.target_node op) with
    | part0 :: part1 :: _ :: _ =>
        if String.eqb part0 "shard" then Py.int part1 else None
    | _ => None
    end
  else lookup_target cluster_nodes (Operation.target_node op).

(** The four findings that the failover validation of a node can give. *)
Definition failover_finding_of (node : NodeInfo) (f : LogFinding) : Prop :=
  f = no_promotion_finding node
  ∨ (∃ expected line, f = wrong_shard_finding node expected line)
  ∨ (∃ line, f = failover_error_finding node line)
  ∨ (∃ line, f = replication_issue_finding node line).




(** The items of a literal text. *)
Definition literal (text : string) : Re.regex :=
  (λ c, Re.Atom (Re.CsChar c) Re.QOne) <$> list_ascii_of_string text.

(* ===================================================================== *)
(** * [LogValidationResult.__str__] *)

(** [len([f for f in self.findings if f.severity == s])] *)
Definition count_severity (s : string) (findings : list LogFinding) : nat :=
  length (filter (λ f, LogFinding.severity f = s) findings).

Definition __str__ (self : LogValidationResult) : string :=
  if LogValidationResult.success self then
    "Log validation passed (" +:+
    Py.str (Z.of_nat (LogValidationResult.shards_checked self)) +:+ " shards checked)"
  else
    let error_count := count_severity "error" (LogValidationResult.findings self) in
    let warning_count := count_severity "warning" (LogValidationResult.findings self) in
    "Log validation failed: " +:+ Py.str (Z.of_nat error_count) +:+ " errors, " +:+
    Py.str (Z.of_nat warning_count) +:+ " warnings".

(** A string of decimal digits. *)
Definition digit_string (s : string) : Prop :=
  Forall (λ c, Py.is_digit c = true) (list_ascii_of_string s).

(** The token that names shard [n] for a role. *)
Definition shard_token (n : Z) (role : string) : string :=
  "shard-" +:+ Py.str n +:+ "-" +:+ role.

(* ===================================================================== *)
(** * Concrete topologies, logs and operations *)

Module Sample.

(** Two nodes where the string ["6379"] is the [node_id] of a node of
    shard 0 and the port of a node of shard 1. *)
Definition named_6379 : NodeInfo :=
  NodeInfo.mk "6379" "10.0.0.1" 7000 (Some "aaa1") 0 "primary" "/logs/a.log".
Definition on_port_6379 : NodeInfo :=
  NodeInfo.mk "node-b" "10.0.0.2" 6379 (Some "bbb2") 1 "primary" "/logs/b.log".
Definition ambiguous_topology : list NodeInfo := [named_6379; on_port_6379].
Definition failover_6379 : Operation := Operation.mk "failover" "6379".

(** A shard where the primary won the election and the replica's own
    attempt expired. *)
Definition winner : NodeInfo :=
  NodeInfo.mk "node-2" "10.0.0.3" 7002 (Some "ccc3") 1 "primary" "/logs/winner.log".
Definition loser : NodeInfo :=
  NodeInfo.mk "node-3" "10.0.0.4" 7003 (Some "ddd4") 1 "replica" "/logs/loser.log".

(** A replica that reconfigured itself twice. *)
Definition churning : NodeInfo :=
  NodeInfo.mk "node-4" "10.0.0.5" 7004 (Some "eee5") 2 "replica" "/logs/churning.log".

(** A survivor that saw the quorum on [loser] and not on [winner]. *)
Definition witness_node : NodeInfo :=
  NodeInfo.mk "node-5" "10.0.0.6" 7005 (Some "fff6") 2 "primary" "/logs/witness.log".

(** A line as [readlines()] gives it, with its line feed. *)
Definition nl (line : string) : string := line +:+ String "010" EmptyString.

Definition logs : filesystem := λ path,
  if String.eqb path "/logs/winner.log" then
    Lines [ nl "1:M * Failover election won: I'm the new primary." ]
  else if String.eqb path "/logs/loser.log" then
    Lines [ nl "2:S * Start of election delayed for 500 milliseconds";
            nl "2:S # Failover attempt expired" ]
  else if String.eqb path "/logs/churning.log" then
    Lines [ nl "3:S * I'm a sub-replica! Reconfiguring myself as a replica of ccc3";
            nl "3:S * Connecting to PRIMARY 10.0.0.3:7002";
            nl "3:S * I'm a sub-replica! Reconfiguring myself as a replica of fff6" ]
  else if String.eqb path "/logs/witness.log" then
    Lines [ nl "4:M * Marking node ddd4 (node-3) as failing (quorum reached)." ]
  else Missing.

Definition cluster : list NodeInfo := [winner; loser; churning; witness_node].
Definition failover_shard_1 : Operation := Operation.mk "failover" "shard-1-primary".
Definition failover_shard_2 : Operation := Operation.mk "failover" "node-4".

(** A run in which [winner] and [loser] were killed. *)
Definition operations : list Operation := [failover_shard_1; failover_shard_2].
Definition killed : gset string := {[ "10.0.0.3:7002"; "10.0.0.4:7003" ]}.
Definition primary_killed : gset Z := {[ 1 ]}.

Definition expired_line : string := "2:S # Failover attempt expired".
Definition first_churn_line : string :=
  "3:S * I'm a sub-replica! Reconfiguring myself as a replica of ccc3".
Definition second_churn_line : string :=
  "3:S * I'm a sub-replica! Reconfiguring myself as a replica of fff6".

Definition outcome : LogValidationResult :=
  LogValidationResult.mk false
    [ detection_finding "10.0.0.3:7002";
      replication_issue_finding churning first_churn_line;
      no_promotion_finding witness_node;
      failover_error_finding loser expired_line ]
    2.

(** A node of shard 0 named by its [node_id] only. *)
Definition zero_node : NodeInfo :=
  NodeInfo.mk "node-0" "10.0.0.7" 7006 (Some "0a0b") 0 "primary" "/logs/zero.log".
Definition zero_topology : list NodeInfo := [zero_node; on_port_6379].
Definition failover_node_0 : Operation := Operation.mk "failover" "node-0".


(** The same logs once the files of the two killed nodes are gone. *)
Definition logs_of_survivors : filesystem := λ path,
  if String.eqb path "/logs/winner.log" || String.eqb path "/logs/loser.log"
  then Missing else logs path.

(** No log file at all. *)
Definition no_logs : filesystem := λ _, Missing.

(** A primary of shard 5 that set itself primary in the Valkey shard that
    a node of shard 3 is part of. *)
Definition valkey_shard : string := "0123456789abcdef0123456789abcdef01234567".
Definition misplaced : NodeInfo :=
  NodeInfo.mk "node-8" "10.0.0.8" 7008 (Some "a8a8") 5 "primary" "/logs/misplaced.log".
Definition owner : NodeInfo :=
  NodeInfo.mk "node-9" "10.0.0.9" 7009 (Some "b9b9") 3 "replica" "/logs/owner.log".
Definition set_primary_line : string :=
  "8:M * Setting myself to primary in shard " +:+ valkey_shard +:+ " after failover.".

Definition mixed_logs : filesystem := λ path,
  if String.eqb path "/logs/misplaced.log" then
    Lines [ nl "8:M * Failover election won: I'm the new primary.";
            nl set_primary_line ]
  else if String.eqb path "/logs/owner.log" then
    Lines [ nl ("9:S * Node b9b9 () is now part of shard " +:+ valkey_shard) ]
  else Missing.

(** A primary whose promotion line is older than the last 500 lines of
    its log, and the same log without that line. *)
Definition buried : NodeInfo :=
  NodeInfo.mk "node-6" "10.0.0.10" 7010 (Some "c6c6") 4 "primary" "/logs/buried.log".
Definition recent_lines : list string :=
  replicate 500 (nl "6:M * Connection with replica lost.").
Definition long_log : filesystem := λ path,
  if String.eqb path "/logs/buried.log"
  then Lines (nl "6:M * Failover election won: I'm the new primary." :: recent_lines)
  else Missing.
Definition recent_log : filesystem := λ path,
  if String.eqb path "/logs/buried.log" then Lines recent_lines else Missing.

End Sample.

(* ===================================================================== *)
(** * The built-ins and the searches on examples *)

Example split_shard_token : Py.split "-" "shard-7-primary" = ["shard"; "7"; "primary"].
Proof. reflexivity. Qed.

Example split_keeps_empty_pieces : Py.split "-" "a--b-" = ["a"; ""; "b"; ""].
Proof. reflexivity. Qed.

Example strip_both_ends : Py.strip (String "009" " a b  ") = "a b".
Proof. reflexivity. Qed.

Example int_of_strings :
  Py.int " +1_0 " = Some 10 ∧ Py.int "x" = None ∧ Py.int "" = None
  ∧ Py.int "1__0" = None ∧ Py.int "007" = Some 7.
Proof. repeat split; reflexivity. Qed.

Example str_of_integers : Py.str 6379 = "6379" ∧ Py.str 0 = "0" ∧ Py.str (-1) = "-1".
Proof. repeat split; reflexivity. Qed.

Example last_lines :
  Py.last_n 2 ["a"; "b"; "c"] = ["b"; "c"] ∧ Py.last_n 5 ["a"; "b"; "c"] = ["a"; "b"; "c"].
Proof. split; reflexivity. Qed.

Example compile_epoch_pattern :
  Re.compile "to \d+ after"
  = Ok (literal "to " ++ [Re.Atom Re.CsDigit Re.QPlus] ++ literal " after").
Proof. reflexivity. Qed.

Example compile_rejects_open_group : Re.compile "a(b" = Raise re_error.
Proof. reflexivity. Qed.

Example quorum_line_found :
  line_matches (quorum_pattern "ddd4")
    "4:M * Marking node ddd4 (node-3) as failing (quorum reached)." = true
  ∧ line_matches (quorum_pattern "ddd4")
      "4:M * Marking node ccc3 (node-2) as failing (quorum reached)." = false
  ∧ line_matches (quorum_pattern "ddd4") "4:M * marking NODE DDD4 AS FAILING, QUORUM REACHED"
    = true.
Proof. vm_compute. by repeat split. Qed.

Example epoch_needs_a_digit :
  line_matches "configEpoch set to \d+ after successful failover"
    "configEpoch set to 12 after successful failover" = true
  ∧ line_matches "configEpoch set to \d+ after successful failover"
      "configEpoch set to  after successful failover" = false.
Proof. vm_compute. by repeat split. Qed.

Example leftmost_shard_token :
  first_shard_formation
    ["Node a is now part of shard 0123456789abcdef0123456789abcdef01234567, \
Node b is now part of shard ffffffffffffffffffffffffffffffffffffffff"]
  = Ok (Some "0123456789abcdef0123456789abcdef01234567").
Proof. vm_compute. reflexivity. Qed.

(* ===================================================================== *)
(** * The patterns of the validator compile *)

Lemma promotion_patterns_compile : Forall compiles failover_promotion_patterns.
Proof. repeat constructor; eexists; vm_compute; reflexivity. Qed.

Lemma error_patterns_compile : Forall compiles failover_error_patterns.
Proof. repeat constructor; eexists; vm_compute; reflexivity. Qed.

Lemma replication_patterns_compile : Forall compiles replication_issue_patterns.
Proof. repeat constructor; eexists; vm_compute; reflexivity. Qed.

Lemma shard_formation_compiles : compiles shard_formation_pattern.
Proof. eexists; vm_compute; reflexivity. Qed.

Lemma self_promotion_compiles : compiles self_promotion_pattern.
Proof. eexists; vm_compute; reflexivity. Qed.

(* ===================================================================== *)
(** * The searches in closed form *)

Lemma search_compiled_eq ignorecase pattern regex line :
  Re.compile pattern = Ok regex →
  Re.search ignorecase pattern line = Ok (Re.search_compiled ignorecase regex line).
Proof. intros Hc. unfold Re.search. by rewrite Hc. Qed.

Lemma found_search pattern regex line :
  Re.compile pattern = Ok regex →
  found (Re.search_compiled true regex line) = line_matches pattern line.
Proof.
  intros Hc. unfold line_matches, Re.search. rewrite Hc. simpl.
  by destruct (Re.search_compiled true regex line).
Qed.

Lemma has_pattern_compiled pattern regex log_lines :
  Re.compile pattern = Ok regex →
  _has_pattern log_lines pattern = Ok (has_line pattern log_lines).
Proof.
  intros Hc. unfold _has_pattern, has_line. rewrite Hc. simpl. f_equal.
  induction log_lines as [|line rest IH]; [done|].
  simpl. by rewrite IH, (found_search pattern).
Qed.

Lemma has_pattern_inv pattern log_lines b :
  _has_pattern log_lines pattern = Ok b →
  compiles pattern ∧ b = has_line pattern log_lines.
Proof.
  intros H. destruct (Re.compile pattern) as [regex|e] eqn:Hc.
  - rewrite (has_pattern_compiled _ _ _ Hc) in H. split; [by eexists | congruence].
  - unfold _has_pattern in H. by rewrite Hc in H.
Qed.

Lemma find_all_compiled pattern regex log_lines :
  Re.compile pattern = Ok regex →
  _find_all_patterns log_lines pattern = Ok (matching_lines pattern log_lines).
Proof.
  intros Hc. unfold _find_all_patterns, matching_lines. rewrite Hc. simpl.
  do 2 f_equal.
  induction log_lines as [|line rest IH]; [done|].
  rewrite !filter_cons, IH, (found_search pattern _ _ Hc).
  by repeat case_decide.
Qed.

Lemma any_has_pattern_compiled log_lines patterns :
  Forall compiles patterns →
  any_has_pattern log_lines patterns
  = Ok (existsb (λ pattern, has_line pattern log_lines) patterns).
Proof.
  induction 1 as [|pattern rest [regex Hc] _ IH]; [done|].
  simpl. rewrite (has_pattern_compiled _ _ _ Hc). simpl.
  destruct (has_line pattern log_lines); [done|]. by rewrite IH.
Qed.

Lemma line_local pattern log_lines :
  has_line pattern log_lines = true ↔
  ∃ line, line ∈ log_lines ∧ line_matches pattern line = true.
Proof.
  unfold has_line. rewrite existsb_exists.
  split; intros (line & Hin & Hm); exists line; split; try done;
    by apply list_elem_of_In.
Qed.

(* ===================================================================== *)
(** * [_validate_failover] in closed form *)

Lemma bind_ok {A B} out (a : A) (k : A → Appending.t B) :
  Appending.mk out (Ok a) ≫= k
  = Appending.mk (out ++ Appending.out (k a)) (Appending.res (k a)).
Proof. done. Qed.

Section FailoverClosedForm.
Variable fs : filesystem.

Lemma check_promoted_shard_closed table node log_lines :
  check_promoted_shard table node log_lines
  = Appending.mk (promoted_shard_findings table node log_lines) (Ok ()).
Proof.
  destruct self_promotion_compiles as [regex Hc].
  induction log_lines as [|line rest IH]; [done|].
  cbn [check_promoted_shard promoted_shard_findings].
  rewrite (search_compiled_eq _ _ _ _ Hc).
  unfold mbind, Appending.bind, Appending.lift; cbn [Appending.res Appending.out].
  destruct (Re.search_compiled false regex line) as [m|].
  - destruct (table !! Re.group1 m) as [expected|]; [|done].
    by destruct (negb (expected =? NodeInfo.shard_id node)).
  - by rewrite IH.
Qed.

Lemma report_first_match_closed log_lines patterns finding :
  Forall compiles patterns →
  report_first_match log_lines patterns finding
  = Appending.mk (first_match_findings log_lines patterns finding) (Ok ()).
Proof.
  unfold report_first_match, first_match_findings.
  induction 1 as [|pattern rest [regex Hc] _ IH]; [done|].
  cbn [Appending.for_each flat_map].
  rewrite IH, (find_all_compiled _ _ _ Hc). unfold Appending.lift.
  rewrite bind_ok.
  destruct (matching_lines pattern log_lines); reflexivity.
Qed.

Lemma check_node_closed table node :
  check_node fs table node = Appending.mk (node_findings fs table node) (Ok ()).
Proof.
  unfold check_node, node_findings.
  rewrite (any_has_pattern_compiled _ _ promotion_patterns_compile).
  rewrite !report_first_match_closed
    by (apply error_patterns_compile || apply replication_patterns_compile).
  fold (has_promotion (_read_log_tail fs (NodeInfo.log_file node) 200)).
  unfold Appending.lift. rewrite !bind_ok. cbn [app].
  rewrite check_promoted_shard_closed.
  destruct (String.eqb (NodeInfo.role node) "primary");
    destruct (has_promotion _); cbn [negb];
    rewrite ?bind_ok; cbn [app Appending.out Appending.res];
    rewrite ?bind_ok, ?app_nil_r; reflexivity.
Qed.

Lemma validate_node_closed table node :
  validate_node fs table node
  = if os_path_exists fs (NodeInfo.log_file node)
    then node_findings fs table node else [].
Proof.
  unfold validate_node, Appending.try_except. rewrite check_node_closed.
  by destruct (os_path_exists _ _).
Qed.

Lemma first_shard_formation_returns log_lines :
  ∃ id, first_shard_formation log_lines = Ok id.
Proof.
  destruct shard_formation_compiles as [regex Hc].
  induction log_lines as [|line rest IH]; [by eexists|].
  cbn [first_shard_formation]. rewrite (search_compiled_eq _ _ _ _ Hc).
  cbn [mbind result_bind].
  destruct (Re.search_compiled false regex line); [by eexists | done].
Qed.

Lemma shard_table_returns affected_nodes table :
  ∃ table', shard_table fs affected_nodes table = Ok table'.
Proof.
  revert table. induction affected_nodes as [|node rest IH]; intros table;
    [by eexists|].
  simpl.
  destruct (first_shard_formation_returns
              (if os_path_exists fs (NodeInfo.log_file node)
               then _read_log_tail fs (NodeInfo.log_file node) 500 else []))
    as [id ->].
  simpl. destruct id; apply IH.
Qed.

(** [_validate_failover] never raises, and its findings are those of its
    nodes, one node after the other. *)
Lemma validate_failover_closed affected_nodes :
  ∃ table, _validate_failover fs affected_nodes
           = Ok (flat_map (validate_node fs table) affected_nodes).
Proof.
  unfold _validate_failover.
  destruct (shard_table_returns affected_nodes ∅) as [table ->].
  by exists table.
Qed.
End FailoverClosedForm.

(* ===================================================================== *)
(** * Lists and dictionaries *)

Lemma elem_of_flat_map {A B} (f : A → list B) (l : list A) (y : B) :
  y ∈ flat_map f l ↔ ∃ x, x ∈ l ∧ y ∈ f x.
Proof.
  rewrite list_elem_of_In, in_flat_map.
  split; intros (x & Hx & Hy); exists x; by rewrite ?list_elem_of_In in *.
Qed.

Lemma dict_get_set {V} (d : Dict.t V) k v k' :
  Dict.get (Dict.set d k v) k' = if String.eqb k k' then Some v else Dict.get d k'.
Proof.
  induction d as [|[k0 v0] d IH]; simpl; [done|].
  destruct (String.eqb_spec k0 k) as [->|Hne]; simpl.
  - by destruct (String.eqb_spec k k').
  - rewrite IH. destruct (String.eqb_spec k0 k'), (String.eqb_spec k k'); congruence.
Qed.

Lemma dict_set_keys {V} (d : Dict.t V) k v :
  fst <$> Dict.set d k v = fst <$> d
  ∨ (k ∉ fst <$> d) ∧ fst <$> Dict.set d k v = (fst <$> d) ++ [k].
Proof.
  induction d as [|[k0 v0] d IH].
  - right. split; [apply not_elem_of_nil | done].
  - cbn [Dict.set].
    destruct (String.eqb_spec k0 k) as [->|Hne]; rewrite !fmap_cons; cbn [fst];
      [by left|].
    destruct IH as [IH|[Hk IH]]; rewrite IH; [by left|].
    right. split; [|done]. rewrite elem_of_cons. intros [?|?]; congruence.
Qed.

Lemma dict_set_NoDup {V} (d : Dict.t V) k v :
  NoDup (fst <$> d) → NoDup (fst <$> Dict.set d k v).
Proof.
  intros Hd. destruct (dict_set_keys d k v) as [Heq|[Hk Heq]]; rewrite Heq; [done|].
  apply NoDup_app. split_and!; [done| |apply NoDup_singleton].
  intros x Hx ->%list_elem_of_singleton. done.
Qed.

Lemma dict_get_None {V} (d : Dict.t V) k : k ∉ fst <$> d → Dict.get d k = None.
Proof.
  induction d as [|[k0 v0] d IH]; [done|].
  rewrite fmap_cons, not_elem_of_cons. cbn [fst Dict.get]. intros [Hne Hk].
  destruct (String.eqb_spec k0 k); [congruence | auto].
Qed.

(* ===================================================================== *)
(** * [_validate_failure_detection] in closed form *)

Section DetectionClosedForm.
Variable fs : filesystem.

Lemma tail_of_missing log_file lines :
  os_path_exists fs log_file = false → _read_log_tail fs log_file lines = [].
Proof. unfold os_path_exists, _read_log_tail. by destruct (fs log_file). Qed.

Lemma detected_by_closed killed pattern cluster_nodes b :
  detected_by fs killed pattern cluster_nodes = Ok b →
  b = quorum_evidence fs killed pattern cluster_nodes.
Proof.
  unfold quorum_evidence.
  induction cluster_nodes as [|node rest IH]; simpl; [by intros [= <-]|].
  case_bool_decide; simpl; [done|].
  destruct (os_path_exists fs (NodeInfo.log_file node)) eqn:Hex; simpl.
  - destruct (_has_pattern _ pattern) as [b'|] eqn:Hp; [|done].
    apply has_pattern_inv in Hp as [_ ->]. simpl.
    destruct (has_line pattern _); [by intros [= <-] | done].
  - by rewrite (tail_of_missing _ _ Hex).
Qed.

Lemma detection_loop_closed cluster_nodes killed items findings :
  detection_loop fs cluster_nodes killed items = Ok findings →
  findings = detection_findings fs cluster_nodes killed items.
Proof.
  revert findings. induction items as [|[addr id] rest IH]; intros findings; simpl.
  - by intros [= <-].
  - destruct (detected_by _ _ _ _) as [b|] eqn:Hb; [|done]. simpl.
    apply detected_by_closed in Hb as ->.
    destruct (detection_loop _ _ _ rest) as [later|]; [|done]. simpl.
    rewrite <- (IH later eq_refl). intros [= <-].
    by destruct (quorum_evidence _ _ _ _).
Qed.

Lemma killed_node_ids_NoDup cluster_nodes killed :
  NoDup (fst <$> killed_node_ids cluster_nodes killed).
Proof.
  unfold killed_node_ids.
  induction cluster_nodes as [|node rest IH] using rev_ind; [apply NoDup_nil_2|].
  rewrite foldl_snoc. case_bool_decide; [|done].
  destruct (NodeInfo.cluster_node_id node) as [[|c id]|]; try done.
  by apply dict_set_NoDup.
Qed.

(** When the nodes at an address all carry one known cluster identifier,
    the table of the killed nodes holds it for that address. *)
Lemma killed_node_ids_get cluster_nodes killed node id :
  node ∈ cluster_nodes →
  node_addr node ∈ killed →
  id ≠ "" →
  (∀ other, other ∈ cluster_nodes → node_addr other = node_addr node →
            NodeInfo.cluster_node_id other = Some id) →
  Dict.get (killed_node_ids cluster_nodes killed) (node_addr node) = Some id.
Proof.
  intros Hin Hkilled Hid. unfold killed_node_ids.
  induction cluster_nodes as [|last rest IH] using rev_ind; intros Hall.
  - by apply elem_of_nil in Hin.
  - rewrite foldl_snoc.
    destruct (decide (node_addr last = node_addr node)) as [Heq|Hne].
    + rewrite Heq, bool_decide_true by done.
      rewrite (Hall last) by (rewrite ?elem_of_app, ?list_elem_of_singleton; auto).
      destruct id as [|c id]; [done|].
      rewrite dict_get_set, String.eqb_refl. done.
    + assert (node ∈ rest) as Hrest.
      { apply elem_of_app in Hin as [?|Hl]; [done|].
        apply list_elem_of_singleton in Hl. by subst. }
      lapply (IH Hrest);
        [intros Hget | intros other Ho; apply Hall, elem_of_app; auto].
      case_bool_decide; [|done].
      destruct (NodeInfo.cluster_node_id last) as [[|c' id']|]; try done.
      rewrite dict_get_set. by destruct (String.eqb_spec (node_addr last) (node_addr node)).
Qed.

Lemma detection_findings_cons cluster_nodes killed item items :
  detection_findings fs cluster_nodes killed (item :: items)
  = (if quorum_evidence fs killed (quorum_pattern (snd item)) cluster_nodes
     then [] else [detection_finding (fst item)])
    ++ detection_findings fs cluster_nodes killed items.
Proof. done. Qed.

Lemma detection_findings_other cluster_nodes killed (items : Dict.t string) addr :
  addr ∉ fst <$> items →
  filter (λ f, LogFinding.node_id f = addr)
         (detection_findings fs cluster_nodes killed items) = [].
Proof.
  induction items as [|[k v] rest IH]; [done|].
  rewrite fmap_cons, not_elem_of_cons, detection_findings_cons, filter_app.
  cbn [fst snd]. intros [Hne Hk]. rewrite (IH Hk), app_nil_r.
  destruct (quorum_evidence _ _ _ _); [done|].
  rewrite filter_cons. cbn [detection_finding LogFinding.node_id].
  by case_decide.
Qed.

(** Of a table with distinct keys, only the entry of an address gives
    findings that name it. *)
Lemma detection_findings_of_addr cluster_nodes killed (items : Dict.t string) addr id :
  NoDup (fst <$> items) →
  Dict.get items addr = Some id →
  filter (λ f, LogFinding.node_id f = addr)
         (detection_findings fs cluster_nodes killed items)
  = if quorum_evidence fs killed (quorum_pattern id) cluster_nodes
    then [] else [detection_finding addr].
Proof.
  induction items as [|[k v] rest IH]; [done|].
  rewrite fmap_cons, NoDup_cons, detection_findings_cons, filter_app.
  cbn [fst snd Dict.get]. intros [Hk Hnd].
  destruct (String.eqb_spec k addr) as [->|Hne].
  - intros [= ->]. rewrite (detection_findings_other _ _ _ _ Hk), app_nil_r.
    destruct (quorum_evidence _ _ _ _); [done|].
    rewrite filter_cons. cbn [detection_finding LogFinding.node_id].
    by case_decide.
  - intros Hget. rewrite (IH Hnd Hget).
    destruct (quorum_evidence fs killed (quorum_pattern v) cluster_nodes); [done|].
    rewrite filter_cons. cbn [detection_finding LogFinding.node_id].
    by case_decide.
Qed.

Lemma detection_findings_shard cluster_nodes killed items f :
  f ∈ detection_findings fs cluster_nodes killed items →
  ∃ addr, f = detection_finding addr.
Proof.
  unfold detection_findings. rewrite elem_of_flat_map.
  intros ([addr id] & _ & Hf). simpl in Hf.
  destruct (quorum_evidence _ _ _ _); [by apply elem_of_nil in Hf|].
  apply list_elem_of_singleton in Hf. eauto.
Qed.

Lemma validate_failure_detection_closed cluster_nodes killed findings :
  _validate_failure_detection fs cluster_nodes killed = Ok findings →
  findings = detection_findings fs cluster_nodes killed
               (killed_node_ids cluster_nodes killed)
  ∨ (killed = ∅ ∧ findings = []).
Proof.
  unfold _validate_failure_detection. case_bool_decide.
  - intros [= <-]. by right.
  - intros Hloop. left. by apply detection_loop_closed.
Qed.
End DetectionClosedForm.

(* ===================================================================== *)
(** * The findings of a run *)

Section Findings.
Variable fs : filesystem.
Variable set_iter : gset Z → list Z.

Lemma elem_of_first_match_findings log_lines patterns finding f :
  f ∈ first_match_findings log_lines patterns finding →
  ∃ pattern first rest,
    pattern ∈ patterns ∧ matching_lines pattern log_lines = first :: rest
    ∧ f = finding first.
Proof.
  unfold first_match_findings. rewrite elem_of_flat_map.
  intros (pattern & Hp & Hf).
  destruct (matching_lines pattern log_lines) as [|first rest] eqn:Hm;
    [by apply elem_of_nil in Hf|].
  apply list_elem_of_singleton in Hf. eauto 6.
Qed.

Lemma elem_of_promoted_shard_findings table node log_lines f :
  f ∈ promoted_shard_findings table node log_lines →
  ∃ expected line, f = wrong_shard_finding node expected line.
Proof.
  induction log_lines as [|line rest IH]; cbn [promoted_shard_findings];
    [by intros ?%elem_of_nil|].
  destruct (Re.search false self_promotion_pattern line) as [[m|]|]; try done.
  destruct (table !! Re.group1 m) as [expected|]; [|by intros ?%elem_of_nil].
  destruct (negb _); [|by intros ?%elem_of_nil].
  intros ->%list_elem_of_singleton. eauto.
Qed.

Lemma node_findings_kinds table node f :
  f ∈ node_findings fs table node → failover_finding_of node f.
Proof.
  unfold node_findings, failover_finding_of. rewrite !elem_of_app.
  intros [Hf|[Hf|Hf]].
  - destruct (String.eqb _ _); [|by apply elem_of_nil in Hf].
    destruct (negb _).
    + apply list_elem_of_singleton in Hf. auto.
    + apply elem_of_promoted_shard_findings in Hf. auto.
  - destruct (negb _); [|by apply elem_of_nil in Hf].
    apply elem_of_first_match_findings in Hf as (_ & line & _ & _ & _ & ->). eauto.
  - apply elem_of_first_match_findings in Hf as (_ & line & _ & _ & _ & ->). eauto.
Qed.

Lemma validate_node_kinds table node f :
  f ∈ validate_node fs table node → failover_finding_of node f.
Proof.
  rewrite validate_node_closed.
  destruct (os_path_exists _ _); [apply node_findings_kinds | by intros ?%elem_of_nil].
Qed.

(** A finding of the failover validation bears the identifier and the
    shard of its node, and is no failure-detection finding. *)
Lemma failover_finding_fields node f :
  failover_finding_of node f →
  LogFinding.node_id f = NodeInfo.node_id node
  ∧ LogFinding.shard_id f = NodeInfo.shard_id node
  ∧ ∀ addr, f ≠ detection_finding addr.
Proof.
  intros [->|[(e & l & ->)|[(l & ->)|(l & ->)]]]; split_and!; try done;
    intros addr [=].
Qed.

Lemma failover_findings_returns cluster_nodes operations primary_killed shards :
  ∃ findings,
    failover_findings fs cluster_nodes operations primary_killed shards = Ok findings.
Proof.
  induction shards as [|shard_id rest [later IH]]; [by eexists|].
  cbn [failover_findings]. rewrite IH.
  destruct (_ || _).
  - destruct (validate_failover_closed fs
                (filter (λ n, NodeInfo.shard_id n = shard_id) cluster_nodes))
      as [table ->]. by eexists.
  - by eexists.
Qed.

Lemma failover_findings_from_nodes cluster_nodes operations primary_killed shards
    findings f :
  failover_findings fs cluster_nodes operations primary_killed shards = Ok findings →
  f ∈ findings →
  ∃ node table, node ∈ cluster_nodes ∧ f ∈ validate_node fs table node.
Proof.
  revert findings. induction shards as [|shard_id rest IH]; intros findings.
  - intros [= <-] ?%elem_of_nil. done.
  - cbn [failover_findings].
    destruct (_ || _).
    + destruct (validate_failover_closed fs
                  (filter (λ n, NodeInfo.shard_id n = shard_id) cluster_nodes))
        as [table ->].
      cbn [mbind result_bind].
      destruct (failover_findings _ _ _ _ rest) as [later|]; [|done].
      intros [= <-]. rewrite elem_of_app, elem_of_flat_map.
      intros [(node & Hnode & Hf)|Hf]; [|by eapply IH].
      apply list_elem_of_filter in Hnode as [_ Hnode]. eauto.
    + cbn [mbind result_bind mret result_ret].
      destruct (failover_findings _ _ _ _ rest) as [later|]; [|done].
      intros [= <-]. by eapply IH.
Qed.

(** A run that returns is made of the two validations. *)
Lemma validate_affected_shards_inv cluster_nodes operations killed primary_killed r :
  validate_affected_shards fs set_iter cluster_nodes operations killed primary_killed
  = Ok r →
  ∃ detection failover,
    _validate_failure_detection fs cluster_nodes killed = Ok detection
    ∧ failover_findings fs cluster_nodes operations primary_killed
        (set_iter (_get_affected_shards operations killed cluster_nodes)) = Ok failover
    ∧ LogValidationResult.findings r = detection ++ failover
    ∧ LogValidationResult.success r
      = (length (filter (λ f, LogFinding.severity f = "error") (detection ++ failover))
         =? 0)%nat
    ∧ LogValidationResult.shards_checked r
      = size (_get_affected_shards operations killed cluster_nodes).
Proof.
  unfold validate_affected_shards.
  destruct (_validate_failure_detection _ _ _) as [detection|]; [|done].
  destruct (failover_findings _ _ _ _ _) as [failover|]; [|done].
  intros [= <-]. by exists detection, failover.
Qed.
End Findings.

(* ===================================================================== *)
(** * The affected shards *)

Lemma filter_none {A} (P : A → Prop) `{∀ x, Decision (P x)} (l : list A) :
  filter P l = [] ↔ ∀ x, x ∈ l → ¬ P x.
Proof.
  induction l as [|y l IH]; [by split; [intros _ x ?%elem_of_nil|]|].
  rewrite filter_cons. case_decide as Hy.
  - split; [done|]. intros Hall. destruct (Hall y); [apply elem_of_cons; auto | done].
  - rewrite IH. split.
    + intros Hall x [->|Hx]%elem_of_cons; auto.
    + intros Hall x Hx. apply Hall, elem_of_cons. auto.
Qed.

Lemma filter_ext_elem {A} (P Q : A → Prop) `{∀ x, Decision (P x)} `{∀ x, Decision (Q x)}
    (l : list A) :
  (∀ x, x ∈ l → P x ↔ Q x) → filter P l = filter Q l.
Proof.
  induction l as [|y l IH]; [done|]. intros Hall.
  rewrite !filter_cons, IH by (intros x Hx; apply Hall, elem_of_cons; auto).
  destruct (Hall y) as [HPQ HQP]; [apply elem_of_cons; auto|].
  by repeat case_decide; auto; tauto.
Qed.

Lemma affected_by_operation_shard cluster_nodes affected op :
  affected_by_operation cluster_nodes affected op
  = match operation_shard cluster_nodes op with
    | Some shard_id => affected ∪ {[shard_id]}
    | None => affected
    end.
Proof.
  unfold affected_by_operation, operation_shard.
  destruct (Py.contains _ _); [|done].
  destruct (Py.split _ _) as [|part0 [|part1 [|part2 parts]]]; try done.
  by destruct (String.eqb part0 "shard").
Qed.

Lemma elem_of_affected_by_operations cluster_nodes operations affected shard_id :
  shard_id ∈ foldl (affected_by_operation cluster_nodes) affected operations
  ↔ shard_id ∈ affected
    ∨ ∃ op, op ∈ operations ∧ operation_shard cluster_nodes op = Some shard_id.
Proof.
  revert affected. induction operations as [|op rest IH]; intros affected;
    cbn [foldl].
  - split; [auto|]. by intros [?|(op & ?%elem_of_nil & _)].
  - rewrite IH, affected_by_operation_shard. setoid_rewrite elem_of_cons.
    destruct (operation_shard cluster_nodes op) as [s|] eqn:Hop.
    + rewrite elem_of_union, elem_of_singleton. split.
      * intros [[?| ->]|(op' & ? & ?)]; eauto 6.
      * intros [?|(op' & [->|?] & Hs)]; eauto 6.
        rewrite Hop in Hs. injection Hs as ->. auto.
    + split.
      * intros [?|(op' & ? & ?)]; eauto 6.
      * intros [?|(op' & [->|?] & Hs)]; eauto 6. congruence.
Qed.

Lemma elem_of_affected_by_chaos killed cluster_nodes affected shard_id :
  shard_id ∈ foldl (affected_by_chaos killed) affected cluster_nodes
  ↔ shard_id ∈ affected
    ∨ ∃ node, node ∈ cluster_nodes ∧ node_addr node ∈ killed
              ∧ NodeInfo.shard_id node = shard_id.
Proof.
  revert affected. induction cluster_nodes as [|node rest IH]; intros affected;
    cbn [foldl].
  - split; [auto|]. by intros [?|(op & ?%elem_of_nil & _)].
  - rewrite IH. unfold affected_by_chaos. setoid_rewrite elem_of_cons.
    case_bool_decide as Hk.
    + rewrite elem_of_union, elem_of_singleton. split.
      * intros [[?| ->]|(n & ? & ?)]; eauto 7.
      * intros [?|(n & [->|?] & ? & ?)]; eauto 7.
    + split.
      * intros [?|(n & ? & ?)]; eauto 7.
      * intros [?|(n & [->|?] & ? & ?)]; eauto 7. done.
Qed.

(** The affected set is the union of what the operations resolve to and
    of the shards of the killed nodes. *)
Lemma elem_of_get_affected_shards operations killed cluster_nodes shard_id :
  shard_id ∈ _get_affected_shards operations killed cluster_nodes
  ↔ (∃ op, op ∈ operations ∧ operation_shard cluster_nodes op = Some shard_id)
    ∨ (∃ node, node ∈ cluster_nodes ∧ node_addr node ∈ killed
               ∧ NodeInfo.shard_id node = shard_id).
Proof.
  unfold _get_affected_shards.
  rewrite elem_of_affected_by_chaos, elem_of_affected_by_operations.
  rewrite elem_of_empty. tauto.
Qed.

(* ===================================================================== *)
(** * Properties of a validation run *)

Lemma quorum_evidence_true fs killed pattern cluster_nodes :
  quorum_evidence fs killed pattern cluster_nodes = true
  ↔ ∃ survivor line,
      survivor ∈ cluster_nodes ∧ (node_addr survivor ∉ killed)
      ∧ line ∈ _read_log_tail fs (NodeInfo.log_file survivor) 200
      ∧ line_matches pattern line = true.
Proof.
  unfold quorum_evidence. rewrite existsb_exists. split.
  - intros (survivor & Hin & [Hk Hl]%andb_true_iff).
    apply line_local in Hl as (line & ? & ?).
    exists survivor, line. split_and!; try done.
    + by apply list_elem_of_In.
    + by apply negb_true_iff, bool_decide_eq_false in Hk.
  - intros (survivor & line & Hin & Hk & Hl & Hm).
    exists survivor. split; [by apply list_elem_of_In|].
    apply andb_true_iff. split.
    + by apply negb_true_iff, bool_decide_eq_false.
    + apply line_local; eauto.
Qed.

(** C1. For a killed address whose topology nodes carry a known cluster
    identifier: when some node that was not killed has, in the last 200
    lines of its log, a line matching the quorum pattern of that
    identifier, the result holds no failure-detection finding for the
    address; otherwise the failure detection gives exactly one finding
    naming the address, the [detection_finding] with severity [error] and
    shard [-1], and the result holds it exactly once. *)
Theorem failure_detection_per_killed_node
    (fs : filesystem) (set_iter : gset Z → list Z)
    (cluster_nodes : list NodeInfo) (operations : list Operation)
    (killed : gset string) (primary_killed : gset Z)
    (r : LogValidationResult) (node : NodeInfo) (id : string) :
  validate_affected_shards fs set_iter cluster_nodes operations killed primary_killed
  = Ok r →
  node ∈ cluster_nodes →
  node_addr node ∈ killed →
  id ≠ "" →
  (∀ other, other ∈ cluster_nodes → node_addr other = node_addr node →
            NodeInfo.cluster_node_id other = Some id) →
  let addr := node_addr node in
  let evidence :=
    ∃ survivor line,
      survivor ∈ cluster_nodes ∧ (node_addr survivor ∉ killed)
      ∧ line ∈ _read_log_tail fs (NodeInfo.log_file survivor) 200
      ∧ line_matches (quorum_pattern id) line = true in
  ∃ detection,
    _validate_failure_detection fs cluster_nodes killed = Ok detection
    ∧ (evidence →
       (∀ f, f ∈ detection → LogFinding.node_id f ≠ addr)
       ∧ detection_finding addr ∉ LogValidationResult.findings r)
    ∧ (¬ evidence →
       filter (λ f, LogFinding.node_id f = addr) detection = [detection_finding addr]
       ∧ filter (λ f, f = detection_finding addr) (LogValidationResult.findings r)
         = [detection_finding addr]).
Proof.
  intros Hrun Hnode Hkilled Hid Hall addr evidence.
  apply validate_affected_shards_inv in Hrun
    as (detection & failover & Hdet & Hfail & Hfindings & _).
  exists detection. split; [done|].
  assert (∀ f, f ∈ failover → f ≠ detection_finding addr) as Hother.
  { intros f Hf.
    destruct (failover_findings_from_nodes _ _ _ _ _ _ _ Hfail Hf)
      as (n & table & _ & Hn).
    by apply validate_node_kinds, failover_finding_fields in Hn as (_ & _ & Hn). }
  assert (filter (λ f, LogFinding.node_id f = addr) detection
          = if quorum_evidence fs killed (quorum_pattern id) cluster_nodes
            then [] else [detection_finding addr]) as Hfilter.
  { apply validate_failure_detection_closed in Hdet as [->|[-> _]];
      [|by apply elem_of_empty in Hkilled].
    apply detection_findings_of_addr; [apply killed_node_ids_NoDup|].
    by apply killed_node_ids_get. }
  assert (filter (λ f, f = detection_finding addr) detection
          = filter (λ f, LogFinding.node_id f = addr) detection) as Hsame.
  { apply filter_ext_elem. intros f Hf.
    apply validate_failure_detection_closed in Hdet as [->|[_ ->]];
      [|by apply elem_of_nil in Hf].
    apply detection_findings_shard in Hf as [a ->].
    split; [by intros -> | by intros [= ->]]. }
  assert (filter (λ f, f = detection_finding addr) failover = []) as Hnone.
  { apply filter_none. intros f Hf. by apply Hother. }
  rewrite Hfindings, filter_app, Hnone, app_nil_r, Hsame, Hfilter.
  unfold evidence. rewrite <- quorum_evidence_true.
  destruct (quorum_evidence fs killed (quorum_pattern id) cluster_nodes).
  - split; [|done]. intros _. split.
    + intros f Hf Hid'. eapply (filter_none (λ f, LogFinding.node_id f = addr)); eauto.
    + rewrite elem_of_app. intros [Hf|Hf]; [|by eapply Hother].
      eapply (filter_none (λ f, LogFinding.node_id f = addr)); eauto.
  - split; [done|]. intros _. done.
Qed.

(** C4. The [success] of a returned result is true exactly when no finding
    has severity [error]: warnings alone leave it true, one error makes it
    false. *)
Theorem success_iff_no_error
    (fs : filesystem) (set_iter : gset Z → list Z)
    (cluster_nodes : list NodeInfo) (operations : list Operation)
    (killed : gset string) (primary_killed : gset Z) (r : LogValidationResult) :
  validate_affected_shards fs set_iter cluster_nodes operations killed primary_killed
  = Ok r →
  (LogValidationResult.success r = true
   ↔ ∀ f, f ∈ LogValidationResult.findings r → LogFinding.severity f ≠ "error")
  ∧ ((∀ f, f ∈ LogValidationResult.findings r → LogFinding.severity f = "warning") →
     LogValidationResult.success r = true)
  ∧ ((∃ f, f ∈ LogValidationResult.findings r ∧ LogFinding.severity f = "error") →
     LogValidationResult.success r = false).
Proof.
  intros Hrun.
  apply validate_affected_shards_inv in Hrun
    as (detection & failover & _ & _ & -> & -> & _).
  assert (∀ l : list LogFinding,
            (length (filter (λ f, LogFinding.severity f = "error") l) =? 0)%nat = true
            ↔ ∀ f, f ∈ l → LogFinding.severity f ≠ "error") as Hiff.
  { intros l. by rewrite Nat.eqb_eq, length_zero_iff_nil, filter_none. }
  split_and!.
  - apply Hiff.
  - intros Hwarn. apply Hiff. intros f Hf. by rewrite (Hwarn f Hf).
  - intros (f & Hf & Herr). apply not_true_is_false. rewrite Hiff.
    intros Hall. by apply (Hall f).
Qed.

(** C8. [shards_checked] of a returned result is the number of elements of
    the affected-shard set, and that set is the union of the shards the
    operations resolve to and of the shards of the killed nodes, whether
    or not the topology has a node in them. *)
Theorem shards_checked_is_cardinality
    (fs : filesystem) (set_iter : gset Z → list Z)
    (cluster_nodes : list NodeInfo) (operations : list Operation)
    (killed : gset string) (primary_killed : gset Z) (r : LogValidationResult) :
  validate_affected_shards fs set_iter cluster_nodes operations killed primary_killed
  = Ok r →
  LogValidationResult.shards_checked r
  = size (_get_affected_shards operations killed cluster_nodes)
  ∧ ∀ shard_id,
      shard_id ∈ _get_affected_shards operations killed cluster_nodes
      ↔ (∃ op, op ∈ operations ∧ operation_shard cluster_nodes op = Some shard_id)
        ∨ (∃ node, node ∈ cluster_nodes ∧ node_addr node ∈ killed
                   ∧ NodeInfo.shard_id node = shard_id).
Proof.
  intros Hrun.
  apply validate_affected_shards_inv in Hrun as (_ & _ & _ & _ & _ & _ & ->).
  split; [done|]. apply elem_of_get_affected_shards.
Qed.

(** C9. In a returned result, a finding whose [shard_id] is not [-1] has
    the shard of some node of the topology. *)
Theorem finding_shard_in_topology
    (fs : filesystem) (set_iter : gset Z → list Z)
    (cluster_nodes : list NodeInfo) (operations : list Operation)
    (killed : gset string) (primary_killed : gset Z)
    (r : LogValidationResult) (f : LogFinding) :
  validate_affected_shards fs set_iter cluster_nodes operations killed primary_killed
  = Ok r →
  f ∈ LogValidationResult.findings r →
  LogFinding.shard_id f ≠ -1 →
  ∃ node, node ∈ cluster_nodes ∧ NodeInfo.shard_id node = LogFinding.shard_id f.
Proof.
  intros Hrun Hf Hshard.
  apply validate_affected_shards_inv in Hrun
    as (detection & failover & Hdet & Hfail & Hfindings & _).
  rewrite Hfindings, elem_of_app in Hf. destruct Hf as [Hf|Hf].
  - apply validate_failure_detection_closed in Hdet as [->|[_ ->]];
      [|by apply elem_of_nil in Hf].
    by apply detection_findings_shard in Hf as [addr ->].
  - destruct (failover_findings_from_nodes _ _ _ _ _ _ _ Hfail Hf)
      as (node & table & Hnode & Hn).
    apply validate_node_kinds, failover_finding_fields in Hn as (_ & Hs & _).
    by exists node.
Qed.

(* ===================================================================== *)
(** * Resolution of an operation's target *)

(** A table built by inserting one entry per node holds, under a key, the
    value of some node with that key, and holds every node's key. *)
Lemma table_lookup_Some {A} (key : A → string) (val : A → Z) (l : list A) k z :
  foldl (λ d x, <[key x := val x]> d) (∅ : gmap string Z) l !! k = Some z →
  ∃ x, x ∈ l ∧ key x = k ∧ val x = z.
Proof.
  induction l as [|y l IH] using rev_ind; [simpl; by rewrite lookup_empty|].
  rewrite foldl_snoc. setoid_rewrite elem_of_app.
  destruct (decide (key y = k)) as [<-|Hne].
  - rewrite lookup_insert_eq. intros [= <-]. exists y.
    rewrite list_elem_of_singleton. auto.
  - rewrite lookup_insert_ne by done. intros (x & ? & ? & ?)%IH. eauto.
Qed.

Lemma table_lookup_is_Some {A} (key : A → string) (val : A → Z) (l : list A) x :
  x ∈ l → is_Some (foldl (λ d x, <[key x := val x]> d) (∅ : gmap string Z) l !! key x).
Proof.
  induction l as [|y l IH] using rev_ind; [by intros ?%elem_of_nil|].
  rewrite foldl_snoc, elem_of_app, list_elem_of_singleton.
  destruct (decide (key y = key x)) as [->|Hne].
  - rewrite lookup_insert_eq. by eexists.
  - rewrite lookup_insert_ne by done. intros [?| ->]; [auto | done].
Qed.

Lemma node_id_to_shard_of_node cluster_nodes node :
  node ∈ cluster_nodes →
  (∀ other, other ∈ cluster_nodes → NodeInfo.node_id other = NodeInfo.node_id node →
            NodeInfo.shard_id other = NodeInfo.shard_id node) →
  node_id_to_shard cluster_nodes !! NodeInfo.node_id node = Some (NodeInfo.shard_id node).
Proof.
  intros Hin Hall. unfold node_id_to_shard.
  destruct (table_lookup_is_Some NodeInfo.node_id NodeInfo.shard_id _ _ Hin) as [z Hz].
  rewrite Hz. apply table_lookup_Some in Hz as (other & Ho & Hid & <-).
  f_equal. by apply Hall.
Qed.

(** The priority of the three tables holds between shards other than 0. *)
Lemma lookup_target_node_id cluster_nodes target shard_id :
  node_id_to_shard cluster_nodes !! target = Some shard_id → shard_id ≠ 0 →
  lookup_target cluster_nodes target = Some shard_id.
Proof.
  intros Hid Hnz%Z.eqb_neq. unfold lookup_target, py_or. rewrite Hid.
  cbn [truthy_int]. rewrite Hnz. cbn [negb truthy_int]. by rewrite ?Hnz.
Qed.

Lemma lookup_target_port cluster_nodes target shard_id :
  node_id_to_shard cluster_nodes !! target = None →
  port_to_shard cluster_nodes !! target = Some shard_id → shard_id ≠ 0 →
  lookup_target cluster_nodes target = Some shard_id.
Proof.
  intros Hid Hport Hnz%Z.eqb_neq. unfold lookup_target, py_or. rewrite Hid, Hport.
  cbn [truthy_int]. rewrite Hnz. cbn [negb truthy_int]. by rewrite ?Hnz.
Qed.

(** An operation that resolves to no shard leaves the affected set and
    the failover test as they are without it. *)
Lemma shard_had_failover_cons shard_id op rest cluster_nodes :
  _shard_had_failover shard_id (op :: rest) cluster_nodes
  = (String.eqb (Operation.type_value op) "failover"
     && match operation_shard cluster_nodes op with
        | Some op_shard_id => op_shard_id =? shard_id
        | None => false
        end)
    || _shard_had_failover shard_id rest cluster_nodes.
Proof.
  cbn [_shard_had_failover]. unfold operation_shard.
  destruct (String.eqb _ "failover"); [|done]. cbn [negb andb].
  destruct (Py.contains _ _).
  - destruct (Py.split _ _) as [|part0 [|part1 [|part2 parts]]]; try done.
    destruct (String.eqb part0 "shard"); [|done].
    destruct (Py.int part1) as [s|]; [|done]. by destruct (s =? shard_id).
  - destruct (lookup_target _ _) as [s|]; [|done]. by destruct (s =? shard_id).
Qed.

Lemma shard_had_failover_inert shard_id before op after cluster_nodes :
  operation_shard cluster_nodes op = None →
  _shard_had_failover shard_id (before ++ op :: after) cluster_nodes
  = _shard_had_failover shard_id (before ++ after) cluster_nodes.
Proof.
  intros Hop. induction before as [|op' before IH].
  - cbn [app]. rewrite shard_had_failover_cons, Hop. by rewrite andb_false_r.
  - rewrite <- !app_comm_cons, !shard_had_failover_cons. by rewrite IH.
Qed.

Lemma get_affected_shards_inert before op after killed cluster_nodes :
  operation_shard cluster_nodes op = None →
  _get_affected_shards (before ++ op :: after) killed cluster_nodes
  = _get_affected_shards (before ++ after) killed cluster_nodes.
Proof.
  intros Hop. unfold _get_affected_shards.
  rewrite !foldl_app. cbn [foldl]. by rewrite affected_by_operation_shard, Hop.
Qed.

Lemma failover_findings_ext fs cluster_nodes operations operations' primary_killed shards :
  (∀ shard_id, _shard_had_failover shard_id operations cluster_nodes
               = _shard_had_failover shard_id operations' cluster_nodes) →
  failover_findings fs cluster_nodes operations primary_killed shards
  = failover_findings fs cluster_nodes operations' primary_killed shards.
Proof.
  intros Hsame. induction shards as [|shard_id rest IH]; [done|].
  cbn [failover_findings]. by rewrite IH, Hsame.
Qed.

Lemma validate_affected_shards_inert fs set_iter cluster_nodes before op after
    killed primary_killed :
  operation_shard cluster_nodes op = None →
  validate_affected_shards fs set_iter cluster_nodes (before ++ op :: after)
    killed primary_killed
  = validate_affected_shards fs set_iter cluster_nodes (before ++ after)
      killed primary_killed.
Proof.
  intros Hop. unfold validate_affected_shards.
  rewrite (get_affected_shards_inert _ _ _ _ _ Hop).
  by rewrite (failover_findings_ext fs _ (before ++ op :: after) (before ++ after))
    by (intros s; by apply shard_had_failover_inert).
Qed.

Lemma affected_by_chaos_none cluster_nodes affected :
  foldl (affected_by_chaos ∅) affected cluster_nodes = affected.
Proof.
  induction cluster_nodes as [|node rest IH]; [done|].
  cbn [foldl]. unfold affected_by_chaos at 2.
  rewrite bool_decide_false by apply not_elem_of_empty. done.
Qed.

(** C7. An operation on ["shard-7-primary"] puts shard 7 in the affected
    set whatever the topology is. An operation on ["shard-x-primary"] adds
    no shard, and the run with it returns what the run without it returns:
    no finding comes from it and nothing is raised; alone, with no node
    killed, it gives the successful result with no finding and no shard. *)
Theorem shard_pattern_targets
    (fs : filesystem) (set_iter : gset Z → list Z)
    (cluster_nodes : list NodeInfo) (before after : list Operation)
    (killed : gset string) (primary_killed : gset Z) (type_value : string) :
  (∀ X, set_iter X ≡ₚ elements X) →
  let numbered := Operation.mk type_value "shard-7-primary" in
  let malformed := Operation.mk type_value "shard-x-primary" in
  7 ∈ _get_affected_shards (before ++ numbered :: after) killed cluster_nodes
  ∧ _get_affected_shards (before ++ malformed :: after) killed cluster_nodes
    = _get_affected_shards (before ++ after) killed cluster_nodes
  ∧ validate_affected_shards fs set_iter cluster_nodes (before ++ malformed :: after)
      killed primary_killed
    = validate_affected_shards fs set_iter cluster_nodes (before ++ after)
        killed primary_killed
  ∧ validate_affected_shards fs set_iter cluster_nodes [malformed] ∅ primary_killed
    = Ok (LogValidationResult.mk true [] 0).
Proof.
  intros Hiter numbered malformed.
  assert (operation_shard cluster_nodes malformed = None) as Hmal by done.
  split_and!.
  - apply elem_of_get_affected_shards. left. exists numbered.
    split; [|done]. rewrite elem_of_app, elem_of_cons. auto.
  - by apply get_affected_shards_inert.
  - by apply validate_affected_shards_inert.
  - rewrite (validate_affected_shards_inert fs set_iter cluster_nodes [] malformed [])
      by done.
    unfold validate_affected_shards, _get_affected_shards. cbn [app foldl].
    rewrite affected_by_chaos_none.
    assert (set_iter ∅ = []) as ->.
    { apply Permutation_nil_r. by rewrite Hiter, elements_empty. }
    unfold _validate_failure_detection. rewrite bool_decide_true by done.
    by rewrite size_empty.
Qed.

(** C10. An operation whose target is the [node_id] of a node of shard 0,
    and does not contain ["shard-"], is not resolved by the [node_id]
    table: the look-up goes on to the port table and the cluster
    identifier table; when neither has the target, the operation adds no
    shard, so the affected set, and with it the whole run, is what it is
    without the operation. *)
Theorem zero_shard_node_id_falls_through
    (cluster_nodes : list NodeInfo) (node : NodeInfo) (op : Operation) :
  node ∈ cluster_nodes →
  NodeInfo.shard_id node = 0 →
  (∀ other, other ∈ cluster_nodes → NodeInfo.node_id other = NodeInfo.node_id node →
            NodeInfo.shard_id other = 0) →
  Operation.target_node op = NodeInfo.node_id node →
  Py.contains "shard-" (Operation.target_node op) = false →
  let target := Operation.target_node op in
  node_id_to_shard cluster_nodes !! target = Some 0
  ∧ lookup_target cluster_nodes target
    = py_or (port_to_shard cluster_nodes !! target)
            (cluster_id_to_shard cluster_nodes !! target)
  ∧ (port_to_shard cluster_nodes !! target = None →
     cluster_id_to_shard cluster_nodes !! target = None →
     (∀ affected, affected_by_operation cluster_nodes affected op = affected)
     ∧ (∀ before after killed,
          _get_affected_shards (before ++ op :: after) killed cluster_nodes
          = _get_affected_shards (before ++ after) killed cluster_nodes)
     ∧ ∀ fs set_iter before after killed primary_killed,
         validate_affected_shards fs set_iter cluster_nodes (before ++ op :: after)
           killed primary_killed
         = validate_affected_shards fs set_iter cluster_nodes (before ++ after)
             killed primary_killed).
Proof.
  intros Hin Hzero Hall Htarget Hplain target. subst target.
  assert (node_id_to_shard cluster_nodes !! Operation.target_node op = Some 0) as Hid.
  { rewrite Htarget, <- Hzero. apply node_id_to_shard_of_node; [done|].
    intros other Ho Hsame. rewrite Hzero. by apply Hall. }
  assert (lookup_target cluster_nodes (Operation.target_node op)
          = py_or (port_to_shard cluster_nodes !! Operation.target_node op)
                  (cluster_id_to_shard cluster_nodes !! Operation.target_node op))
    as Hlookup.
  { unfold lookup_target. by rewrite Hid. }
  split_and!; [done..|].
  intros Hport Hcluster.
  assert (operation_shard cluster_nodes op = None) as Hop.
  { unfold operation_shard. rewrite Hplain, Hlookup, Hport, Hcluster. done. }
  split_and!.
  - intros affected. by rewrite affected_by_operation_shard, Hop.
  - intros before after killed. by apply get_affected_shards_inert.
  - intros fs set_iter before after killed primary_killed.
    by apply validate_affected_shards_inert.
Qed.

(** C3, at the topology [Sample.ambiguous_topology]: the target ["6379"]
    is a key of the [node_id] table, for shard 0, and of the port table,
    for shard 1; the resolution gives shard 1, and shard 0 is not in the
    affected set. *)
Theorem node_id_of_shard_zero_loses_to_port :
  let target := Operation.target_node Sample.failover_6379 in
  Py.contains "shard-" target = false
  ∧ node_id_to_shard Sample.ambiguous_topology !! target = Some 0
  ∧ port_to_shard Sample.ambiguous_topology !! target = Some 1
  ∧ lookup_target Sample.ambiguous_topology target = Some 1
  ∧ elements (_get_affected_shards [Sample.failover_6379] ∅ Sample.ambiguous_topology)
    = [1]
  ∧ _shard_had_failover 0 [Sample.failover_6379] Sample.ambiguous_topology = false.
Proof. vm_compute. by repeat split. Qed.

(* ===================================================================== *)
(** * Properties of the failover validation *)

Section FailoverProperties.
Variable fs : filesystem.

Lemma elem_of_validate_failover affected_nodes findings f :
  _validate_failover fs affected_nodes = Ok findings →
  f ∈ findings →
  ∃ node table,
    node ∈ affected_nodes
    ∧ os_path_exists fs (NodeInfo.log_file node) = true
    ∧ f ∈ node_findings fs table node.
Proof.
  destruct (validate_failover_closed fs affected_nodes) as [table ->].
  intros [= <-]. rewrite elem_of_flat_map. intros (node & Hnode & Hf).
  rewrite validate_node_closed in Hf.
  destruct (os_path_exists _ _) eqn:Hex; [eauto 6 | by apply elem_of_nil in Hf].
Qed.
End FailoverProperties.

Lemma promoted_node_has_no_failover_error fs table node f :
  any_has_pattern (_read_log_tail fs (NodeInfo.log_file node) 200)
    failover_promotion_patterns = Ok true →
  f ∈ validate_node fs table node →
  LogFinding.message f ≠ "Failover error detected".
Proof.
  rewrite (any_has_pattern_compiled _ _ promotion_patterns_compile).
  fold (has_promotion (_read_log_tail fs (NodeInfo.log_file node) 200)).
  intros [= Hpromo]. rewrite validate_node_closed.
  destruct (os_path_exists _ _); [|by intros ?%elem_of_nil].
  unfold node_findings. rewrite Hpromo, !elem_of_app. cbn [negb].
  intros [Hf|[Hf|Hf]].
  - destruct (String.eqb _ _); [|by apply elem_of_nil in Hf].
    by apply elem_of_promoted_shard_findings in Hf as (e & l & ->).
  - by apply elem_of_nil in Hf.
  - by apply elem_of_first_match_findings in Hf as (_ & first & _ & _ & _ & ->).
Qed.

(** C2, as amended. The failover-error findings are gated node by node: a
    finding with the message [Failover error detected] belongs to a node
    of the validated shard whose log exists and whose own 200-line tail
    matches no promotion-success pattern, and it carries the first line of
    that tail matching one of the failover-error patterns; the validation
    of a node whose own tail matches a promotion-success pattern gives no
    such finding. *)
Theorem failover_errors_gated_per_node
    (fs : filesystem) (affected_nodes : list NodeInfo) (findings : list LogFinding) :
  _validate_failover fs affected_nodes = Ok findings →
  (∀ f, f ∈ findings →
        LogFinding.message f = "Failover error detected" →
        ∃ node pattern rest,
          node ∈ affected_nodes
          ∧ os_path_exists fs (NodeInfo.log_file node) = true
          ∧ any_has_pattern (_read_log_tail fs (NodeInfo.log_file node) 200)
              failover_promotion_patterns = Ok false
          ∧ pattern ∈ failover_error_patterns
          ∧ _find_all_patterns (_read_log_tail fs (NodeInfo.log_file node) 200) pattern
            = Ok (LogFinding.log_line f :: rest)
          ∧ f = failover_error_finding node (LogFinding.log_line f))
  ∧ ∃ table,
      findings = flat_map (validate_node fs table) affected_nodes
      ∧ ∀ node f,
          any_has_pattern (_read_log_tail fs (NodeInfo.log_file node) 200)
            failover_promotion_patterns = Ok true →
          f ∈ validate_node fs table node →
          LogFinding.message f ≠ "Failover error detected".
Proof.
  intros Hrun. split.
  - intros f Hf Hmsg.
    destruct (elem_of_validate_failover fs _ _ _ Hrun Hf)
      as (node & table & Hnode & Hex & Hn).
    exists node. unfold node_findings in Hn. rewrite !elem_of_app in Hn.
    destruct Hn as [Hn|[Hn|Hn]].
    + destruct (String.eqb _ _); [|by apply elem_of_nil in Hn].
      destruct (negb _).
      * apply list_elem_of_singleton in Hn. by subst f.
      * apply elem_of_promoted_shard_findings in Hn as (e & l & ->). done.
    + rewrite (any_has_pattern_compiled _ _ promotion_patterns_compile).
      fold (has_promotion (_read_log_tail fs (NodeInfo.log_file node) 200)).
      destruct (has_promotion _); [by apply elem_of_nil in Hn|].
      apply elem_of_first_match_findings in Hn
        as (pattern & first & rest & Hp & Hm & ->).
      exists pattern, rest. split_and!; try done.
      destruct (proj1 (Forall_forall _ _) error_patterns_compile pattern Hp)
        as [regex Hc].
      rewrite (find_all_compiled _ _ _ Hc). by rewrite Hm.
    + apply elem_of_first_match_findings in Hn as (_ & first & _ & _ & _ & ->). done.
  - destruct (validate_failover_closed fs affected_nodes) as [table Hclosed].
    exists table. split; [congruence|].
    intros node f. apply promoted_node_has_no_failover_error.
Qed.

(** C6, as amended. Whatever the role of a node and the outcome of the
    promotion checks, its failover validation gives one replication-issue
    warning when the 200-line tail has at least one line matching the
    sub-replica pattern, carrying the first such line, and none when it
    has no such line. *)
Theorem replication_issue_warned_once
    (fs : filesystem) (affected_nodes : list NodeInfo) :
  ∃ table,
    _validate_failover fs affected_nodes
    = Ok (flat_map (validate_node fs table) affected_nodes)
    ∧ ∀ node, ∃ matches,
        _find_all_patterns (_read_log_tail fs (NodeInfo.log_file node) 200)
          "I'm a sub-replica! Reconfiguring myself" = Ok matches
        ∧ filter (λ f, LogFinding.message f = "Replication topology issue detected")
                 (validate_node fs table node)
          = match matches with
            | first :: _ => [replication_issue_finding node first]
            | [] => []
            end.
Proof.
  destruct (validate_failover_closed fs affected_nodes) as [table Hrun].
  exists table. split; [done|]. intros node.
  pose proof replication_patterns_compile as [[regex Hc] _]%Forall_cons.
  exists (matching_lines "I'm a sub-replica! Reconfiguring myself"
            (_read_log_tail fs (NodeInfo.log_file node) 200)).
  split; [by apply (find_all_compiled _ regex)|].
  rewrite validate_node_closed.
  destruct (os_path_exists _ _) eqn:Hex;
    [|by rewrite (tail_of_missing _ _ _ Hex)].
  unfold node_findings. rewrite !filter_app.
  match goal with |- ?a ++ ?b ++ ?c = _ =>
    assert (a = []) as ->; [|assert (b = []) as ->] end.
  - apply filter_none. intros f Hf.
    destruct (String.eqb _ _); [|by apply elem_of_nil in Hf].
    destruct (negb _).
    + apply list_elem_of_singleton in Hf. by subst f.
    + apply elem_of_promoted_shard_findings in Hf as (e & l & ->). done.
  - apply filter_none. intros f Hf.
    destruct (negb _); [|by apply elem_of_nil in Hf].
    apply elem_of_first_match_findings in Hf as (_ & first & _ & _ & _ & ->). done.
  - unfold first_match_findings, replication_issue_patterns. cbn [flat_map app].
    destruct (matching_lines _ _) as [|first rest]; [done|].
    rewrite app_nil_r, filter_cons. by case_decide.
Qed.

(* ===================================================================== *)
(** * Letter case in the searches *)



Section MatcherCase.





End MatcherCase.








(** ** The two searches without the flag *)






(** ** With the flag, a line matches when one of its spellings does *)







Section MatcherCover.













End MatcherCover.






(* ===================================================================== *)
(** * A run returns *)

(** The only thing that can raise is the compilation of a quorum pattern,
    into which a cluster identifier is spliced. Identifiers made of
    letters and digits, as Valkey's are, compile. *)

Lemma parse_alnum c acc ing s :
  Py.is_alnum c = true →
  Re.parse Re.MNormal acc ing (String c s)
  = Re.parse Re.MNormal (Re.Atom (Re.CsChar c) Re.QOne :: acc) ing s.
Proof.
  destruct c as [[] [] [] [] [] [] [] []]; intros H; vm_compute in H;
    try discriminate H; reflexivity.
Qed.

Lemma append_cons c s t : String c s +:+ t = String c (s +:+ t).
Proof. done. Qed.

Lemma parse_plain s rest acc ing :
  plain s →
  Re.parse Re.MNormal acc ing (s +:+ rest)
  = Re.parse Re.MNormal (rev (literal s) ++ acc) ing rest.
Proof.
  unfold plain, literal. revert acc.
  induction s as [|c s IH]; intros acc; [done|].
  cbn [list_ascii_of_string]. rewrite Forall_cons. intros [Hc Hs].
  rewrite append_cons, (parse_alnum _ _ _ _ Hc), (IH _ Hs).
  rewrite fmap_cons. cbn [rev]. by rewrite <- app_assoc.
Qed.

Lemma quorum_pattern_compiles id : plain id → compiles (quorum_pattern id).
Proof.
  intros Hid. unfold compiles, quorum_pattern, Re.compile.
  rewrite !append_cons. cbn [Re.parse Ascii.eqb Bool.eqb orb]. 
  change ("" +:+ id +:+ ".*as failing.*quorum reached")
    with (id +:+ ".*as failing.*quorum reached").
  rewrite (parse_plain _ _ _ _ Hid). by eexists.
Qed.

Lemma elem_of_dict_set {V} (d : Dict.t V) k v item :
  item ∈ Dict.set d k v → item = (k, v) ∨ item ∈ d.
Proof.
  induction d as [|[k0 v0] d IH]; cbn [Dict.set].
  - intros ->%list_elem_of_singleton. by left.
  - destruct (String.eqb k0 k); rewrite !elem_of_cons; [tauto|].
    intros [->|[->|?]%IH]; auto.
Qed.

Lemma killed_node_ids_from_nodes cluster_nodes killed addr id :
  (addr, id) ∈ killed_node_ids cluster_nodes killed →
  ∃ node, node ∈ cluster_nodes ∧ NodeInfo.cluster_node_id node = Some id.
Proof.
  unfold killed_node_ids.
  induction cluster_nodes as [|last rest IH] using rev_ind; [by intros ?%elem_of_nil|].
  rewrite foldl_snoc. setoid_rewrite elem_of_app. setoid_rewrite list_elem_of_singleton.
  case_bool_decide; [|intros (node & ? & ?)%IH; eauto].
  destruct (NodeInfo.cluster_node_id last) as [[|c id']|] eqn:Hlast;
    try (intros (node & ? & ?)%IH; eauto).
  intros [[= -> ->]|(node & ? & ?)%IH]%elem_of_dict_set; eauto.
Qed.

Section Returns.
Variable fs : filesystem.
Variable set_iter : gset Z → list Z.

Lemma detected_by_returns killed pattern cluster_nodes :
  compiles pattern → ∃ b, detected_by fs killed pattern cluster_nodes = Ok b.
Proof.
  intros [regex Hc]. induction cluster_nodes as [|node rest IH]; [by eexists|].
  cbn [detected_by]. case_bool_decide; [done|].
  destruct (negb _); [done|]. rewrite (has_pattern_compiled _ _ _ Hc).
  cbn [mbind result_bind]. destruct (has_line _ _); [by eexists | done].
Qed.

Lemma detection_loop_returns cluster_nodes killed items :
  Forall (λ item, compiles (quorum_pattern (snd item))) items →
  ∃ findings, detection_loop fs cluster_nodes killed items = Ok findings.
Proof.
  induction 1 as [|[addr id] rest Hc _ [later IH]]; [by eexists|].
  cbn [detection_loop]. cbn [snd] in Hc.
  destruct (detected_by_returns killed _ cluster_nodes Hc) as [b ->].
  rewrite IH. by eexists.
Qed.

(** A run on a topology whose cluster identifiers are made of letters
    and digits returns a result. *)
Lemma validate_affected_shards_returns cluster_nodes operations killed primary_killed :
  (∀ node id, node ∈ cluster_nodes → NodeInfo.cluster_node_id node = Some id →
              plain id) →
  ∃ r, validate_affected_shards fs set_iter cluster_nodes operations killed
         primary_killed = Ok r.
Proof.
  intros Hplain. unfold validate_affected_shards.
  assert (∃ detection, _validate_failure_detection fs cluster_nodes killed
                       = Ok detection) as [detection ->].
  { unfold _validate_failure_detection. case_bool_decide; [by eexists|].
    apply detection_loop_returns, Forall_forall. intros [addr id] Hitem.
    apply killed_node_ids_from_nodes in Hitem as (node & Hnode & Hid).
    apply quorum_pattern_compiles. by eapply Hplain. }
  destruct (failover_findings_returns fs cluster_nodes operations primary_killed
              (set_iter (_get_affected_shards operations killed cluster_nodes)))
    as [failover ->].
  by eexists.
Qed.
End Returns.

(* ===================================================================== *)
(** * The properties on the sample run *)

Lemma sample_run :
  validate_affected_shards Sample.logs elements Sample.cluster Sample.operations
    Sample.killed Sample.primary_killed = Ok Sample.outcome.
Proof. vm_compute. reflexivity. Qed.

Lemma failure_detection_per_killed_node_witness :
  let addr := node_addr Sample.loser in
  let evidence :=
    ∃ survivor line,
      survivor ∈ Sample.cluster ∧ (node_addr survivor ∉ Sample.killed)
      ∧ line ∈ _read_log_tail Sample.logs (NodeInfo.log_file survivor) 200
      ∧ line_matches (quorum_pattern "ddd4") line = true in
  ∃ detection,
    _validate_failure_detection Sample.logs Sample.cluster Sample.killed = Ok detection
    ∧ (evidence →
       (∀ f, f ∈ detection → LogFinding.node_id f ≠ addr)
       ∧ detection_finding addr ∉ LogValidationResult.findings Sample.outcome)
    ∧ (¬ evidence →
       filter (λ f, LogFinding.node_id f = addr) detection = [detection_finding addr]
       ∧ filter (λ f, f = detection_finding addr)
                (LogValidationResult.findings Sample.outcome)
         = [detection_finding addr]).
Proof.
  apply (failure_detection_per_killed_node Sample.logs elements Sample.cluster
           Sample.operations Sample.killed Sample.primary_killed Sample.outcome
           Sample.loser "ddd4").
  - apply sample_run.
  - unfold Sample.cluster. rewrite !elem_of_cons. auto.
  - apply (bool_decide_unpack _). vm_compute. exact I.
  - discriminate.
  - intros other Hother Haddr. unfold Sample.cluster in Hother.
    repeat (apply elem_of_cons in Hother as [->|Hother]);
      [vm_compute in Haddr; try discriminate Haddr; reflexivity ..|].
    by apply elem_of_nil in Hother.
Defined.

Lemma success_iff_no_error_witness :
  (LogValidationResult.success Sample.outcome = true
   ↔ ∀ f, f ∈ LogValidationResult.findings Sample.outcome →
          LogFinding.severity f ≠ "error")
  ∧ ((∀ f, f ∈ LogValidationResult.findings Sample.outcome →
           LogFinding.severity f = "warning") →
     LogValidationResult.success Sample.outcome = true)
  ∧ ((∃ f, f ∈ LogValidationResult.findings Sample.outcome
           ∧ LogFinding.severity f = "error") →
     LogValidationResult.success Sample.outcome = false).
Proof.
  apply (success_iff_no_error Sample.logs elements Sample.cluster Sample.operations
           Sample.killed Sample.primary_killed Sample.outcome).
  apply sample_run.
Defined.

Lemma shards_checked_is_cardinality_witness :
  LogValidationResult.shards_checked Sample.outcome
  = size (_get_affected_shards Sample.operations Sample.killed Sample.cluster)
  ∧ ∀ shard_id,
      shard_id ∈ _get_affected_shards Sample.operations Sample.killed Sample.cluster
      ↔ (∃ op, op ∈ Sample.operations
               ∧ operation_shard Sample.cluster op = Some shard_id)
        ∨ (∃ node, node ∈ Sample.cluster ∧ node_addr node ∈ Sample.killed
                   ∧ NodeInfo.shard_id node = shard_id).
Proof.
  apply (shards_checked_is_cardinality Sample.logs elements Sample.cluster
           Sample.operations Sample.killed Sample.primary_killed Sample.outcome).
  vm_compute. reflexivity.
Defined.

Lemma finding_shard_in_topology_witness :
  ∃ node, node ∈ Sample.cluster
          ∧ NodeInfo.shard_id node
            = LogFinding.shard_id (failover_error_finding Sample.loser Sample.expired_line).
Proof.
  apply (finding_shard_in_topology Sample.logs elements Sample.cluster
           Sample.operations Sample.killed Sample.primary_killed Sample.outcome).
  - apply sample_run.
  - unfold Sample.outcome. cbn [LogValidationResult.findings].
    rewrite !elem_of_cons. auto.
  - discriminate.
Defined.

Lemma shard_pattern_targets_witness :
  let numbered := Operation.mk "failover" "shard-7-primary" in
  let malformed := Operation.mk "failover" "shard-x-primary" in
  7 ∈ _get_affected_shards ([Sample.failover_shard_1] ++ numbered :: [])
        Sample.killed Sample.cluster
  ∧ _get_affected_shards ([Sample.failover_shard_1] ++ malformed :: [])
      Sample.killed Sample.cluster
    = _get_affected_shards ([Sample.failover_shard_1] ++ []) Sample.killed Sample.cluster
  ∧ validate_affected_shards Sample.logs elements Sample.cluster
      ([Sample.failover_shard_1] ++ malformed :: []) Sample.killed Sample.primary_killed
    = validate_affected_shards Sample.logs elements Sample.cluster
        ([Sample.failover_shard_1] ++ []) Sample.killed Sample.primary_killed
  ∧ validate_affected_shards Sample.logs elements Sample.cluster [malformed] ∅
      Sample.primary_killed
    = Ok (LogValidationResult.mk true [] 0).
Proof.
  apply (shard_pattern_targets Sample.logs elements Sample.cluster
           [Sample.failover_shard_1] [] Sample.killed Sample.primary_killed "failover").
  intros X. reflexivity.
Defined.

Lemma zero_shard_node_id_falls_through_witness :
  let target := Operation.target_node Sample.failover_node_0 in
  node_id_to_shard Sample.zero_topology !! target = Some 0
  ∧ lookup_target Sample.zero_topology target
    = py_or (port_to_shard Sample.zero_topology !! target)
            (cluster_id_to_shard Sample.zero_topology !! target)
  ∧ (port_to_shard Sample.zero_topology !! target = None →
     cluster_id_to_shard Sample.zero_topology !! target = None →
     (∀ affected,
        affected_by_operation Sample.zero_topology affected Sample.failover_node_0
        = affected)
     ∧ (∀ before after killed,
          _get_affected_shards (before ++ Sample.failover_node_0 :: after) killed
            Sample.zero_topology
          = _get_affected_shards (before ++ after) killed Sample.zero_topology)
     ∧ ∀ fs set_iter before after killed primary_killed,
         validate_affected_shards fs set_iter Sample.zero_topology
           (before ++ Sample.failover_node_0 :: after) killed primary_killed
         = validate_affected_shards fs set_iter Sample.zero_topology
             (before ++ after) killed primary_killed).
Proof.
  apply (zero_shard_node_id_falls_through Sample.zero_topology Sample.zero_node
           Sample.failover_node_0).
  - unfold Sample.zero_topology. rewrite !elem_of_cons. auto.
  - reflexivity.
  - intros other Hother Hid. unfold Sample.zero_topology in Hother.
    repeat (apply elem_of_cons in Hother as [->|Hother]);
      [vm_compute in Hid; try discriminate Hid; reflexivity ..|].
    by apply elem_of_nil in Hother.
  - reflexivity.
  - vm_compute. reflexivity.
Defined.

(** On the sample topology the operation on ["node-0"] marks no shard. *)
Example zero_shard_operation_marks_nothing :
  port_to_shard Sample.zero_topology !! "node-0" = None
  ∧ cluster_id_to_shard Sample.zero_topology !! "node-0" = None
  ∧ elements (_get_affected_shards [Sample.failover_node_0] ∅ Sample.zero_topology) = []
  ∧ _shard_had_failover 0 [Sample.failover_node_0] Sample.zero_topology = false.
Proof. vm_compute. by repeat split. Qed.

Lemma failover_errors_gated_per_node_witness :
  let affected_nodes := [Sample.winner; Sample.loser] in
  let findings := [failover_error_finding Sample.loser Sample.expired_line] in
  (∀ f, f ∈ findings →
        LogFinding.message f = "Failover error detected" →
        ∃ node pattern rest,
          node ∈ affected_nodes
          ∧ os_path_exists Sample.logs (NodeInfo.log_file node) = true
          ∧ any_has_pattern (_read_log_tail Sample.logs (NodeInfo.log_file node) 200)
              failover_promotion_patterns = Ok false
          ∧ pattern ∈ failover_error_patterns
          ∧ _find_all_patterns (_read_log_tail Sample.logs (NodeInfo.log_file node) 200)
              pattern
            = Ok (LogFinding.log_line f :: rest)
          ∧ f = failover_error_finding node (LogFinding.log_line f))
  ∧ ∃ table,
      findings = flat_map (validate_node Sample.logs table) affected_nodes
      ∧ ∀ node f,
          any_has_pattern (_read_log_tail Sample.logs (NodeInfo.log_file node) 200)
            failover_promotion_patterns = Ok true →
          f ∈ validate_node Sample.logs table node →
          LogFinding.message f ≠ "Failover error detected".
Proof.
  apply (failover_errors_gated_per_node Sample.logs [Sample.winner; Sample.loser]
           [failover_error_finding Sample.loser Sample.expired_line]).
  vm_compute. reflexivity.
Defined.

(** C2, as stated, fails: [winner] and [loser] are the two nodes of shard
    1, the tail of [winner] matches a promotion-success pattern, and the
    validation of the shard gives a failover-error finding for [loser]. *)
Lemma failover_error_despite_promotion_in_shard :
  NodeInfo.shard_id Sample.winner = NodeInfo.shard_id Sample.loser
  ∧ any_has_pattern (_read_log_tail Sample.logs (NodeInfo.log_file Sample.winner) 200)
      failover_promotion_patterns = Ok true
  ∧ _validate_failover Sample.logs [Sample.winner; Sample.loser]
    = Ok [LogFinding.mk "node-3" 1 "error" "Failover error detected"
            "2:S # Failover attempt expired"]
  ∧ validate_affected_shards Sample.logs elements [Sample.winner; Sample.loser]
      [Sample.failover_shard_1] ∅ ∅
    = Ok (LogValidationResult.mk false
            [LogFinding.mk "node-3" 1 "error" "Failover error detected"
               "2:S # Failover attempt expired"] 1).
Proof. vm_compute. by repeat split. Qed.

(** C6, as stated, fails: the tail of [churning] has two lines matching
    the sub-replica pattern, and its validation gives one warning. *)
Lemma two_churn_lines_one_warning :
  _find_all_patterns (_read_log_tail Sample.logs (NodeInfo.log_file Sample.churning) 200)
    "I'm a sub-replica! Reconfiguring myself"
  = Ok [Sample.first_churn_line; Sample.second_churn_line]
  ∧ _validate_failover Sample.logs [Sample.churning]
    = Ok [LogFinding.mk "node-4" 2 "warning" "Replication topology issue detected"
            Sample.first_churn_line].
Proof. vm_compute. by repeat split. Qed.



(* ===================================================================== *)
(** * Further properties: reading and searching a log *)

(** X1. [_read_log_tail] gives the end of the file: what it returns is a
    suffix of the lines of the file, as long as the file when that has at
    most [lines] lines and [lines] long otherwise; with [lines = 0] the
    slice [[-0:]] gives the whole file; a file that is missing or cannot
    be read gives the empty list. *)
Theorem read_log_tail_is_suffix (fs : filesystem) (log_file : string) (lines : nat) :
  match fs log_file with
  | Lines all_lines =>
      (∃ older, all_lines = older ++ _read_log_tail fs log_file lines)
      ∧ length (_read_log_tail fs log_file lines)
        = match lines with
          | O => length all_lines
          | _ => Nat.min lines (length all_lines)
          end
  | _ => _read_log_tail fs log_file lines = []
  end.
Proof.
  unfold _read_log_tail, Py.last_n. destruct (fs log_file) as [| |all_lines]; try done.
  destruct (Nat.ltb_spec lines (length all_lines)) as [Hlt|Hge].
  - destruct lines as [|n].
    + split; [by exists []|done].
    + split.
      * exists (take (length all_lines - S n) all_lines). by rewrite take_drop.
      * rewrite length_drop. lia.
  - split; [by exists []|]. destruct lines; lia.
Qed.

Lemma rstrip_idemp s : Py.rstrip (Py.rstrip s) = Py.rstrip s.
Proof.
  induction s as [|c s IH]; [done|]. cbn [Py.rstrip].
  destruct (Py.rstrip s) as [|c' r] eqn:Hr.
  - destruct (Py.is_space c) eqn:Hc; [done|]. cbn [Py.rstrip]. by rewrite Hc.
  - cbn [Py.rstrip]. cbn [Py.rstrip] in IH. by rewrite IH.
Qed.

Lemma lstrip_head s :
  Py.lstrip s = "" ∨ ∃ c t, Py.lstrip s = String c t ∧ Py.is_space c = false.
Proof.
  induction s as [|c s IH]; [by left|]. cbn [Py.lstrip].
  destruct (Py.is_space c) eqn:Hc; [done|]. right. eauto.
Qed.

Lemma lstrip_rstrip_head c t :
  Py.is_space c = false →
  Py.lstrip (Py.rstrip (String c t)) = Py.rstrip (String c t).
Proof.
  intros Hc. cbn [Py.rstrip].
  destruct (Py.rstrip t); rewrite ?Hc; cbn [Py.lstrip]; by rewrite Hc.
Qed.

Lemma strip_idemp s : Py.strip (Py.strip s) = Py.strip s.
Proof.
  unfold Py.strip. destruct (lstrip_head s) as [->|(c & t & -> & Hc)]; [done|].
  by rewrite lstrip_rstrip_head, rstrip_idemp.
Qed.

(** X2. [_has_pattern] and [_find_all_patterns] agree: on the same lines
    and pattern they raise together, and otherwise the first answers true
    exactly when the second returns a line. *)
Theorem has_pattern_agrees_with_find_all (log_lines : list string) (pattern : string) :
  match _has_pattern log_lines pattern, _find_all_patterns log_lines pattern with
  | Ok b, Ok matches => b = true ↔ matches ≠ []
  | Raise e, Raise e' => e = e'
  | _, _ => False
  end.
Proof.
  destruct (Re.compile pattern) as [regex|e] eqn:Hc.
  - rewrite (has_pattern_compiled _ _ _ Hc), (find_all_compiled _ _ _ Hc).
    unfold has_line, matching_lines.
    induction log_lines as [|line rest IH]; [done|].
    cbn [existsb]. rewrite filter_cons.
    destruct (line_matches pattern line) eqn:Hl.
    + rewrite decide_True by done. done.
    + rewrite decide_False by done. done.
  - unfold _has_pattern, _find_all_patterns. by rewrite Hc.
Qed.

(** X3. The lines that [_find_all_patterns] returns are stripped lines of
    the log that match the pattern, no more of them than the log has
    lines, and stripping one again changes nothing. *)
Theorem find_all_patterns_returns_stripped_matches
    (log_lines : list string) (pattern : string) (matches : list string) :
  _find_all_patterns log_lines pattern = Ok matches →
  (length matches ≤ length log_lines)%nat
  ∧ ∀ m, m ∈ matches →
      Py.strip m = m
      ∧ ∃ line, line ∈ log_lines ∧ m = Py.strip line
                ∧ _has_pattern [line] pattern = Ok true.
Proof.
  intros Hm. destruct (Re.compile pattern) as [regex|e] eqn:Hc;
    [|unfold _find_all_patterns in Hm; by rewrite Hc in Hm].
  rewrite (find_all_compiled _ _ _ Hc) in Hm. injection Hm as <-.
  unfold matching_lines. split.
  - rewrite length_fmap. apply length_filter.
  - intros m (line & -> & [Hl Hin]%list_elem_of_filter)%list_elem_of_fmap.
    split; [apply strip_idemp|]. exists line. split_and!; try done.
    rewrite (has_pattern_compiled _ _ _ Hc). unfold has_line. cbn [existsb].
    by rewrite Hl.
Qed.

Lemma find_all_patterns_returns_stripped_matches_witness :
  let log_lines := _read_log_tail Sample.logs "/logs/churning.log" 200 in
  let matches := [Sample.first_churn_line; Sample.second_churn_line] in
  (length matches ≤ length log_lines)%nat
  ∧ ∀ m, m ∈ matches →
      Py.strip m = m
      ∧ ∃ line, line ∈ log_lines ∧ m = Py.strip line
                ∧ _has_pattern [line] "I'm a sub-replica! Reconfiguring myself" = Ok true.
Proof.
  apply (find_all_patterns_returns_stripped_matches
           (_read_log_tail Sample.logs "/logs/churning.log" 200)
           "I'm a sub-replica! Reconfiguring myself").
  vm_compute. reflexivity.
Defined.

(* ===================================================================== *)
(** * Further properties: the failure-detection check *)

Lemma killed_node_ids_provenance cluster_nodes killed addr id :
  (addr, id) ∈ killed_node_ids cluster_nodes killed →
  addr ∈ killed
  ∧ id ≠ ""
  ∧ ∃ node, node ∈ cluster_nodes ∧ node_addr node = addr
            ∧ NodeInfo.cluster_node_id node = Some id.
Proof.
  unfold killed_node_ids.
  induction cluster_nodes as [|last rest IH] using rev_ind; [by intros ?%elem_of_nil|].
  rewrite foldl_snoc. setoid_rewrite elem_of_app. setoid_rewrite list_elem_of_singleton.
  assert ((addr, id) ∈ foldl
            (λ d node,
               if bool_decide (node_addr node ∈ killed)
               then match NodeInfo.cluster_node_id node with
                    | Some (String _ _ as id) => Dict.set d (node_addr node) id
                    | _ => d
                    end
               else d) [] rest →
          addr ∈ killed ∧ id ≠ ""
          ∧ ∃ node, (node ∈ rest ∨ node = last) ∧ node_addr node = addr
                    ∧ NodeInfo.cluster_node_id node = Some id) as Hrest.
  { intros (? & ? & node & ? & ? & ?)%IH. eauto 10. }
  case_bool_decide as Hk; [|done].
  destruct (NodeInfo.cluster_node_id last) as [[|c id']|] eqn:Hlast; try done.
  intros [[= -> ->]|?]%elem_of_dict_set; [|auto].
  split_and!; [done..|]. exists last. auto.
Qed.

Lemma detection_findings_sublist fs cluster_nodes killed (items : Dict.t string) :
  detection_findings fs cluster_nodes killed items
  `sublist_of` (detection_finding ∘ fst <$> items).
Proof.
  induction items as [|[addr id] rest IH]; [done|].
  rewrite detection_findings_cons, fmap_cons. cbn [fst snd].
  destruct (quorum_evidence _ _ _ _); cbn [app].
  - by apply sublist_cons.
  - by apply sublist_skip.
Qed.

Lemma detection_finding_node_id (items : Dict.t string) :
  LogFinding.node_id <$> (detection_finding ∘ fst <$> items) = fst <$> items.
Proof. rewrite <- list_fmap_compose. by apply list_fmap_ext. Qed.

(** X4. The failure-detection findings name pairwise different addresses,
    and there are no more of them than killed addresses. *)
Theorem detection_findings_distinct_and_bounded
    (fs : filesystem) (cluster_nodes : list NodeInfo) (killed : gset string)
    (findings : list LogFinding) :
  _validate_failure_detection fs cluster_nodes killed = Ok findings →
  NoDup (LogFinding.node_id <$> findings)
  ∧ (length findings ≤ size killed)%nat.
Proof.
  intros [->|[_ ->]]%validate_failure_detection_closed;
    [|split; [apply NoDup_nil_2 | simpl; lia]].
  pose proof (detection_findings_sublist fs cluster_nodes killed
                (killed_node_ids cluster_nodes killed)) as Hsub.
  pose proof (killed_node_ids_NoDup cluster_nodes killed) as Hnd.
  split.
  - apply (sublist_NoDup _ (LogFinding.node_id <$> (detection_finding ∘ fst <$>
                               killed_node_ids cluster_nodes killed))).
    + by rewrite detection_finding_node_id.
    + by apply fmap_sublist.
  - etrans; [by apply sublist_length, Hsub|]. rewrite length_fmap.
    rewrite <- (length_fmap fst). unfold size, set_size. cbn.
    apply submseteq_length, NoDup_submseteq; [done|].
    intros addr ([a id] & -> & Hin)%list_elem_of_fmap.
    apply elem_of_elements. by apply killed_node_ids_provenance in Hin as [? _].
Qed.

Lemma detection_findings_distinct_and_bounded_witness :
  NoDup (LogFinding.node_id <$> [detection_finding "10.0.0.3:7002"])
  ∧ (length [detection_finding "10.0.0.3:7002"] ≤ size Sample.killed)%nat.
Proof.
  apply (detection_findings_distinct_and_bounded Sample.logs Sample.cluster).
  vm_compute. reflexivity.
Defined.

(** X5. A failure-detection finding names a killed address at which the
    topology has a node with a known, non-empty cluster identifier, and is
    the [error] finding of that address with shard [-1] and no log line:
    a killed node without an identifier, and a killed address that is not
    in the topology, are never reported. *)
Theorem detection_reports_only_identified_killed_nodes
    (fs : filesystem) (cluster_nodes : list NodeInfo) (killed : gset string)
    (findings : list LogFinding) (f : LogFinding) :
  _validate_failure_detection fs cluster_nodes killed = Ok findings →
  f ∈ findings →
  f = detection_finding (LogFinding.node_id f)
  ∧ LogFinding.node_id f ∈ killed
  ∧ ∃ node id,
      node ∈ cluster_nodes ∧ node_addr node = LogFinding.node_id f
      ∧ NodeInfo.cluster_node_id node = Some id ∧ id ≠ "".
Proof.
  intros [->|[_ ->]]%validate_failure_detection_closed Hf;
    [|by apply elem_of_nil in Hf].
  unfold detection_findings in Hf. apply elem_of_flat_map in Hf as ([addr id] & Hin & Hf).
  cbn [fst snd] in Hf. destruct (quorum_evidence _ _ _ _); [by apply elem_of_nil in Hf|].
  apply list_elem_of_singleton in Hf as ->.
  apply killed_node_ids_provenance in Hin as (? & ? & node & ? & ? & ?).
  split_and!; [done..|]. by exists node, id.
Qed.

Lemma detection_reports_only_identified_killed_nodes_witness :
  let f := detection_finding "10.0.0.3:7002" in
  f = detection_finding (LogFinding.node_id f)
  ∧ LogFinding.node_id f ∈ Sample.killed
  ∧ ∃ node id,
      node ∈ Sample.cluster ∧ node_addr node = LogFinding.node_id f
      ∧ NodeInfo.cluster_node_id node = Some id ∧ id ≠ "".
Proof.
  apply (detection_reports_only_identified_killed_nodes Sample.logs Sample.cluster
           Sample.killed [detection_finding "10.0.0.3:7002"]).
  - vm_compute. reflexivity.
  - apply list_elem_of_singleton. reflexivity.
Defined.

Lemma detected_by_same_survivor_logs fs fs' killed pattern cluster_nodes :
  (∀ node, node ∈ cluster_nodes → node_addr node ∉ killed →
           fs (NodeInfo.log_file node) = fs' (NodeInfo.log_file node)) →
  detected_by fs killed pattern cluster_nodes
  = detected_by fs' killed pattern cluster_nodes.
Proof.
  induction cluster_nodes as [|node rest IH]; [done|]. intros Hsame.
  cbn [detected_by].
  rewrite IH by (intros n Hn; apply Hsame, elem_of_cons; auto).
  case_bool_decide as Hk; [done|].
  unfold os_path_exists, _read_log_tail.
  by rewrite (Hsame node) by (try apply elem_of_cons; auto).
Qed.

(** X6. The failure-detection check reads the logs of the nodes that were
    not killed and nothing else: two file systems that agree on those log
    files give the same outcome, whatever the logs of the killed nodes
    hold. *)
Theorem detection_reads_survivor_logs_only
    (fs fs' : filesystem) (cluster_nodes : list NodeInfo) (killed : gset string) :
  (∀ node, node ∈ cluster_nodes → node_addr node ∉ killed →
           fs (NodeInfo.log_file node) = fs' (NodeInfo.log_file node)) →
  _validate_failure_detection fs cluster_nodes killed
  = _validate_failure_detection fs' cluster_nodes killed.
Proof.
  intros Hsame. unfold _validate_failure_detection. case_bool_decide; [done|].
  induction (Dict.items (killed_node_ids cluster_nodes killed)) as [|[addr id] rest IH];
    [done|].
  cbn [detection_loop].
  by rewrite IH, (detected_by_same_survivor_logs fs fs' _ _ _ Hsame).
Qed.

Lemma detection_reads_survivor_logs_only_witness :
  _validate_failure_detection Sample.logs Sample.cluster Sample.killed
  = _validate_failure_detection Sample.logs_of_survivors Sample.cluster Sample.killed.
Proof.
  apply detection_reads_survivor_logs_only.
  intros node Hnode Hsurvivor. unfold Sample.cluster in Hnode.
  repeat (apply elem_of_cons in Hnode as [->|Hnode]);
    try (by apply elem_of_nil in Hnode); try reflexivity;
    exfalso; apply Hsurvivor; apply (bool_decide_unpack _); vm_compute; exact I.
Defined.

Lemma detected_by_without_logs fs killed pattern cluster_nodes :
  (∀ node, node ∈ cluster_nodes → node_addr node ∉ killed →
           os_path_exists fs (NodeInfo.log_file node) = false) →
  detected_by fs killed pattern cluster_nodes = Ok false.
Proof.
  induction cluster_nodes as [|node rest IH]; [done|]. intros Hnone.
  cbn [detected_by].
  rewrite IH by (intros n Hn; apply Hnone, elem_of_cons; auto).
  case_bool_decide as Hk; [done|].
  by rewrite (Hnone node) by (try apply elem_of_cons; auto).
Qed.

Lemma killed_node_ids_of_none cluster_nodes : killed_node_ids cluster_nodes ∅ = [].
Proof.
  unfold killed_node_ids.
  induction cluster_nodes as [|last rest IH] using rev_ind; [done|].
  rewrite foldl_snoc, IH. by rewrite bool_decide_false by apply not_elem_of_empty.
Qed.

(** X7. When no node that was not killed has a log file, the check
    compiles no pattern and so raises nothing, whatever the cluster
    identifiers are, and it reports every killed address with a known
    identifier, in the order in which the topology first has them. *)
Theorem detection_without_survivor_logs
    (fs : filesystem) (cluster_nodes : list NodeInfo) (killed : gset string) :
  (∀ node, node ∈ cluster_nodes → node_addr node ∉ killed →
           os_path_exists fs (NodeInfo.log_file node) = false) →
  _validate_failure_detection fs cluster_nodes killed
  = Ok (detection_finding ∘ fst <$> killed_node_ids cluster_nodes killed).
Proof.
  intros Hnone. unfold _validate_failure_detection. case_bool_decide as Hk.
  - by rewrite Hk, killed_node_ids_of_none.
  - unfold Dict.items.
    induction (killed_node_ids cluster_nodes killed) as [|[addr id] rest IH]; [done|].
    cbn [detection_loop]. by rewrite IH, detected_by_without_logs.
Qed.

Lemma detection_without_survivor_logs_witness :
  _validate_failure_detection Sample.no_logs Sample.cluster Sample.killed
  = Ok (detection_finding ∘ fst <$> killed_node_ids Sample.cluster Sample.killed).
Proof.
  apply detection_without_survivor_logs. reflexivity.
Defined.

(* ===================================================================== *)
(** * Further properties: the affected shards *)

(** ** [int] reads back what [str] writes *)

Lemma string_of_uint_digits d : digit_string (NilEmpty.string_of_uint d).
Proof. unfold digit_string. induction d; simpl; by constructor. Qed.

Lemma int_digits_acc d acc :
  Py.int_digits (Z.pos acc) true (NilEmpty.string_of_uint d)
  = Some (Z.pos (Pos.of_uint_acc d acc)).
Proof.
  revert acc. induction d; intros acc; [done|..];
    cbn [NilEmpty.string_of_uint Py.int_digits Pos.of_uint_acc];
    match goal with
    | |- context [Py.is_digit ?c] => change (Py.is_digit c) with true
    end; cbn iota;
    match goal with
    | |- Py.int_digits ?z true _ = Some (Z.pos (Pos.of_uint_acc _ ?p)) =>
        replace z with (Z.pos p) by (unfold Py.digit_value; cbn; lia)
    end; apply IHd.
Qed.

Lemma int_digits_zero d :
  Py.int_digits 0 true (NilEmpty.string_of_uint d) = Some (Z.of_N (Pos.of_uint d)).
Proof.
  induction d; [done| |..];
    cbn [NilEmpty.string_of_uint Py.int_digits Pos.of_uint];
    match goal with
    | |- context [Py.is_digit ?c] => change (Py.is_digit c) with true
    end; cbn iota; [apply IHd|..];
    match goal with
    | |- Py.int_digits ?z true _ = Some (Z.of_N (N.pos (Pos.of_uint_acc _ ?p))) =>
        change z with (Z.pos p)
    end; apply int_digits_acc.
Qed.

Lemma int_digits_first c s :
  Py.is_digit c = true →
  Py.int_digits 0 false (String c s) = Py.int_digits 0 true (String c s).
Proof. intros Hc. cbn [Py.int_digits]. by rewrite Hc. Qed.

Lemma int_lstrip_digit c s :
  Py.is_digit c = true → Py.int_lstrip (String c s) = String c s.
Proof.
  destruct c as [[] [] [] [] [] [] [] []]; intros H; vm_compute in H;
    try discriminate H; reflexivity.
Qed.

Lemma int_rstrip_digits s : digit_string s → Py.int_rstrip s = s.
Proof.
  unfold digit_string. induction s as [|c s IH]; [done|].
  cbn [list_ascii_of_string]. rewrite Forall_cons. intros [Hc Hs].
  cbn [Py.int_rstrip]. rewrite (IH Hs).
  destruct s; [|done].
  destruct c as [[] [] [] [] [] [] [] []]; vm_compute in Hc;
    try discriminate Hc; reflexivity.
Qed.

Lemma digit_count_digits s :
  digit_string s → Py.digit_count s = N.of_nat (String.length s).
Proof.
  unfold digit_string. induction s as [|c s IH]; [done|].
  cbn [list_ascii_of_string]. rewrite Forall_cons. intros [Hc Hs].
  cbn [Py.digit_count String.length]. rewrite Hc, (IH Hs). lia.
Qed.

Lemma int_of_digit_string c s :
  digit_string (String c s) →
  Py.int (String c s)
  = if (N.of_nat (String.length (String c s)) <=? Py.int_max_str_digits)%N
    then Py.int_digits 0 true (String c s) else None.
Proof.
  intros Hd. pose proof Hd as [Hc _]%Forall_cons.
  unfold Py.int. rewrite (int_lstrip_digit _ _ Hc), (int_rstrip_digits _ Hd).
  rewrite <- (int_digits_first _ _ Hc).
  assert (Py.int_literal (String c s)
          = if (N.of_nat (String.length (String c s)) <=? Py.int_max_str_digits)%N
            then Py.int_digits 0 false (String c s) else None) as <-.
  { unfold Py.int_literal. rewrite (digit_count_digits _ Hd), N.ltb_antisym.
    by destruct (_ <=? _)%N. }
  destruct c as [[] [] [] [] [] [] [] []]; vm_compute in Hc;
    try discriminate Hc; reflexivity.
Qed.

Lemma int_of_uint_string d :
  d ≠ Decimal.Nil →
  Py.int (NilEmpty.string_of_uint d)
  = if (N.of_nat (String.length (NilEmpty.string_of_uint d))
        <=? Py.int_max_str_digits)%N
    then Some (Z.of_N (Pos.of_uint d)) else None.
Proof.
  intros Hd. pose proof (string_of_uint_digits d) as Hdigits.
  rewrite <- int_digits_zero.
  destruct (NilEmpty.string_of_uint d) as [|c s] eqn:Hs; [by destruct d|].
  by apply int_of_digit_string.
Qed.

Lemma str_of_pos p : Py.str (Z.pos p) = NilEmpty.string_of_uint (Pos.to_uint p).
Proof.
  unfold Py.str. cbn [Z.to_int NilZero.string_of_int NilZero.string_of_uint].
  pose proof (DecimalPos.Unsigned.to_uint_nonnil p).
  by destruct (Pos.to_uint p).
Qed.

Lemma str_of_neg p :
  Py.str (Z.neg p) = String "-" (NilEmpty.string_of_uint (Pos.to_uint p)).
Proof.
  unfold Py.str. cbn [Z.to_int NilZero.string_of_int NilZero.string_of_uint].
  pose proof (DecimalPos.Unsigned.to_uint_nonnil p).
  by destruct (Pos.to_uint p).
Qed.

Lemma str_nonneg_digits n : 0 ≤ n → digit_string (Py.str n).
Proof.
  destruct n as [|p|p]; [by repeat constructor| |lia]. intros _.
  rewrite str_of_pos. apply string_of_uint_digits.
Qed.

(** [int] reads back what [str] wrote, as long as the digits are no more
    than the interpreter allows. *)
Lemma int_of_str n :
  0 ≤ n →
  Py.int (Py.str n)
  = if (N.of_nat (String.length (Py.str n)) <=? Py.int_max_str_digits)%N
    then Some n else None.
Proof.
  destruct n as [|p|p]; [done| |lia]. intros _.
  rewrite str_of_pos, int_of_uint_string
    by apply DecimalPos.Unsigned.to_uint_nonnil.
  by rewrite DecimalPos.Unsigned.of_to.
Qed.

(** ** The number of digits [str] writes *)

Lemma digit_value_range c : Py.is_digit c = true → 0 ≤ Py.digit_value c ≤ 9.
Proof.
  destruct c as [[] [] [] [] [] [] [] []]; intros H; vm_compute in H;
    try discriminate H; vm_compute; split; discriminate.
Qed.

Lemma int_digits_bounds s acc v :
  digit_string s → 0 ≤ acc →
  Py.int_digits acc true s = Some v →
  acc * 10 ^ Z.of_nat (String.length s) ≤ v
  < (acc + 1) * 10 ^ Z.of_nat (String.length s).
Proof.
  unfold digit_string. revert acc.
  induction s as [|c s IH]; intros acc Hs Hacc Hv.
  - cbn in Hv. injection Hv as <-. cbn. lia.
  - cbn [list_ascii_of_string] in Hs. apply Forall_cons in Hs as [Hc Hs].
    cbn [Py.int_digits] in Hv. rewrite Hc in Hv.
    pose proof (digit_value_range _ Hc) as Hd.
    apply IH in Hv; [|done|lia].
    cbn [String.length]. rewrite Nat2Z.inj_succ, Z.pow_succ_r by lia.
    pose proof (Z.pow_nonneg 10 (Z.of_nat (String.length s))) as Hpow.
    nia.
Qed.

Lemma nzhead_no_leading_zero d :
  match Decimal.nzhead d with Decimal.D0 _ => False | _ => True end.
Proof. induction d; done. Qed.

Lemma to_uint_normal p : Decimal.unorm (Pos.to_uint p) = Pos.to_uint p.
Proof.
  rewrite <- DecimalPos.Unsigned.to_of, DecimalPos.Unsigned.of_to. done.
Qed.

Lemma to_uint_no_leading_zero p :
  match Pos.to_uint p with
  | Decimal.D0 _ | Decimal.Nil => False
  | _ => True
  end.
Proof.
  pose proof (to_uint_normal p) as Hnormal.
  pose proof (DecimalPos.Unsigned.to_uint_nonzero p) as Hnonzero.
  pose proof (nzhead_no_leading_zero (Pos.to_uint p)) as Hhead.
  rewrite <- Hnormal in Hnonzero |- *. unfold Decimal.unorm in *.
  by destruct (Decimal.nzhead (Pos.to_uint p)).
Qed.

(** A positive number lies between the powers of ten that its number of
    digits gives. *)
Lemma str_length_bounds p :
  10 ^ (Z.of_nat (String.length (Py.str (Z.pos p))) - 1) ≤ Z.pos p
  < 10 ^ Z.of_nat (String.length (Py.str (Z.pos p))).
Proof.
  rewrite str_of_pos.
  pose proof (int_digits_zero (Pos.to_uint p)) as Hint.
  rewrite DecimalPos.Unsigned.of_to in Hint. cbn [Z.of_N] in Hint.
  pose proof (string_of_uint_digits (Pos.to_uint p)) as Hdigits.
  pose proof (to_uint_no_leading_zero p) as Hhead.
  split.
  - destruct (Pos.to_uint p) as [|d|d|d|d|d|d|d|d|d|d]; try done;
      cbn [NilEmpty.string_of_uint] in *;
      apply Forall_cons in Hdigits as [_ Hdigits];
      cbn [Py.int_digits] in Hint;
      match type of Hint with
      | context [Py.is_digit ?c] => change (Py.is_digit c) with true in Hint
      end; cbn iota in Hint;
      apply int_digits_bounds in Hint; try done;
      cbn [String.length]; rewrite Nat2Z.inj_succ;
      replace (Z.succ (Z.of_nat (String.length (NilEmpty.string_of_uint d))) - 1)
        with (Z.of_nat (String.length (NilEmpty.string_of_uint d))) by lia;
      pose proof (Z.pow_nonneg 10
                    (Z.of_nat (String.length (NilEmpty.string_of_uint d))));
      vm_compute (Py.digit_value _) in Hint; nia.
  - apply int_digits_bounds in Hint; [lia|done|lia].
Qed.

(** The decimal form of [n >= 0] has at most [m >= 1] digits exactly
    when [n < 10 ^ m]. *)
Lemma str_length_le n (m : N) :
  0 ≤ n → (0 < m)%N →
  (N.of_nat (String.length (Py.str n)) <=? m)%N = true ↔ n < 10 ^ Z.of_N m.
Proof.
  intros Hn Hm. rewrite N.leb_le. destruct n as [|p|p]; [|clear Hn|lia].
  - change (String.length (Py.str 0)) with 1%nat. split.
    + intros _. apply Z.pow_pos_nonneg; lia.
    + intros _. lia.
  - pose proof (str_length_bounds p) as [Hlow Hhigh].
    set (len := String.length (Py.str (Z.pos p))) in *. split.
    + intros Hlen. eapply Z.lt_le_trans; [exact Hhigh|].
      apply Z.pow_le_mono_r; lia.
    + intros Hlt.
      assert (10 ^ (Z.of_nat len - 1) < 10 ^ Z.of_N m) as Hpow by lia.
      apply Z.pow_lt_mono_r_iff in Hpow; lia.
Qed.

(** ** [split] on a shard token *)

Lemma split_nonempty sep s : ∃ piece pieces, Py.split sep s = piece :: pieces.
Proof.
  induction s as [|c s (piece & pieces & IH)]; [by eexists _, _|].
  cbn [Py.split]. destruct (Ascii.eqb c sep); [by eexists _, _|].
  rewrite IH. by eexists _, _.
Qed.

Lemma split_first_piece sep s rest :
  Forall (λ c, Ascii.eqb c sep = false) (list_ascii_of_string s) →
  Py.split sep (s +:+ String sep rest) = s :: Py.split sep rest.
Proof.
  induction s as [|c s IH]; cbn [list_ascii_of_string].
  - intros _. change ("" +:+ String sep rest) with (String sep rest).
    cbn [Py.split]. by rewrite Ascii.eqb_refl.
  - rewrite Forall_cons. intros [Hc Hs]. rewrite append_cons. cbn [Py.split].
    by rewrite Hc, (IH Hs).
Qed.

Lemma digit_is_no_hyphen c : Py.is_digit c = true → Ascii.eqb c "-" = false.
Proof.
  destruct c as [[] [] [] [] [] [] [] []]; intros H; vm_compute in H;
    try discriminate H; reflexivity.
Qed.

Lemma digit_string_no_hyphen s :
  digit_string s → Forall (λ c, Ascii.eqb c "-" = false) (list_ascii_of_string s).
Proof.
  intros Hs. eapply Forall_impl; [exact Hs|]. apply digit_is_no_hyphen.
Qed.

Lemma operation_shard_of_token cluster_nodes type_value n role :
  operation_shard cluster_nodes (Operation.mk type_value (shard_token n role))
  = if (0 <=? n) && (N.of_nat (String.length (Py.str n)) <=? Py.int_max_str_digits)%N
    then Some n else None.
Proof.
  unfold operation_shard, shard_token. cbn [Operation.target_node].
  assert (Py.contains "shard-" ("shard-" +:+ Py.str n +:+ "-" +:+ role) = true)
    as -> by done.
  change ("shard-" +:+ Py.str n +:+ "-" +:+ role)
    with ("shard" +:+ String "-" (Py.str n +:+ "-" +:+ role)).
  rewrite split_first_piece by (by repeat constructor).
  destruct (split_nonempty "-" role) as (piece & pieces & Hrole).
  destruct n as [|p|p].
  - change (Py.str 0 +:+ "-" +:+ role) with ("0" +:+ String "-" role).
    rewrite split_first_piece by (by repeat constructor). by rewrite Hrole.
  - change (Py.str (Z.pos p) +:+ "-" +:+ role)
      with (Py.str (Z.pos p) +:+ String "-" role).
    rewrite split_first_piece by (by apply digit_string_no_hyphen, str_nonneg_digits).
    rewrite Hrole. cbn [String.eqb Ascii.eqb Bool.eqb].
    rewrite int_of_str by lia. change (0 <=? Z.pos p) with true. cbn [andb].
    by destruct (_ <=? _)%N.
  - rewrite str_of_neg. rewrite append_cons. cbn [Py.split Ascii.eqb Bool.eqb].
    change (NilEmpty.string_of_uint (Pos.to_uint p) +:+ "-" +:+ role)
      with (NilEmpty.string_of_uint (Pos.to_uint p) +:+ String "-" role).
    rewrite split_first_piece
      by apply digit_string_no_hyphen, string_of_uint_digits.
    done.
Qed.

(** X8. The token [shard-<n>-<role>], with [n] in decimal, resolves to
    shard [n], in both functions that read targets and for every role,
    exactly when [n >= 0] and its decimal form has no more digits than
    [int] accepts (4300 as the interpreter starts), that is when
    [0 <= n < 10 ^ 4300]. With more digits [int] raises [ValueError],
    which both functions catch, and the operation resolves to nothing; for
    a negative [n] the sign is taken for a separator, the piece read as
    the shard is empty, and the operation resolves to nothing as well. *)
Theorem shard_token_round_trip
    (cluster_nodes : list NodeInfo) (affected : gset Z) (n : Z) (role : string) :
  let target := "shard-" +:+ Py.str n +:+ "-" +:+ role in
  let readable :=
    (0 <=? n) && (N.of_nat (String.length (Py.str n)) <=? Py.int_max_str_digits)%N in
  affected_by_operation cluster_nodes affected (Operation.mk "failover" target)
  = (if readable then affected ∪ {[n]} else affected)
  ∧ (∀ shard_id,
      _shard_had_failover shard_id [Operation.mk "failover" target] cluster_nodes
      = readable && (n =? shard_id))
  ∧ (readable = true ↔ 0 ≤ n < 10 ^ Z.of_N Py.int_max_str_digits).
Proof.
  intros target readable. fold (shard_token n role) in target. subst target.
  split; [|split].
  - rewrite affected_by_operation_shard, operation_shard_of_token.
    fold readable. by destruct readable.
  - intros shard_id. rewrite shard_had_failover_cons, operation_shard_of_token.
    fold readable. cbn [Operation.type_value _shard_had_failover].
    change (String.eqb "failover" "failover") with true.
    rewrite orb_false_r. by destruct readable.
  - subst readable. rewrite andb_true_iff, Z.leb_le. split.
    + intros [Hn Hlen]. split; [done|]. by apply str_length_le.
    + intros [Hn Hlt]. split; [done|]. by apply str_length_le.
Qed.

(** ** How the affected set is composed *)

(** X9. The affected set of two lists of operations and two sets of
    killed addresses taken together is the union of the two affected
    sets: operations and kills only ever add shards, and none is
    conditional on another. *)
Theorem get_affected_shards_union
    (operations operations' : list Operation) (killed killed' : gset string)
    (cluster_nodes : list NodeInfo) :
  _get_affected_shards (operations ++ operations') (killed ∪ killed') cluster_nodes
  = _get_affected_shards operations killed cluster_nodes
    ∪ _get_affected_shards operations' killed' cluster_nodes.
Proof.
  apply set_eq. intros shard_id.
  rewrite elem_of_union, !elem_of_get_affected_shards.
  setoid_rewrite elem_of_app. setoid_rewrite elem_of_union. split.
  - intros [(op & [?|?] & ?)|(node & ? & [?|?] & ?)]; eauto 8.
  - intros [[(op & ? & ?)|(node & ? & ? & ?)]|[(op & ? & ?)|(node & ? & ? & ?)]];
      eauto 8.
Qed.

(** X10. The order of the operations does not matter to the affected
    set. *)
Theorem get_affected_shards_permutation
    (operations operations' : list Operation) (killed : gset string)
    (cluster_nodes : list NodeInfo) :
  operations ≡ₚ operations' →
  _get_affected_shards operations killed cluster_nodes
  = _get_affected_shards operations' killed cluster_nodes.
Proof.
  intros Hperm. apply set_eq. intros shard_id.
  rewrite !elem_of_get_affected_shards. by setoid_rewrite Hperm.
Qed.

Lemma get_affected_shards_permutation_witness :
  _get_affected_shards [Sample.failover_shard_1; Sample.failover_shard_2]
    Sample.killed Sample.cluster
  = _get_affected_shards [Sample.failover_shard_2; Sample.failover_shard_1]
      Sample.killed Sample.cluster.
Proof.
  apply get_affected_shards_permutation. apply perm_swap.
Defined.

Lemma shard_had_failover_true shard_id operations cluster_nodes :
  _shard_had_failover shard_id operations cluster_nodes = true
  ↔ ∃ op, op ∈ operations ∧ Operation.type_value op = "failover"
          ∧ operation_shard cluster_nodes op = Some shard_id.
Proof.
  induction operations as [|op rest IH].
  - split; [done|]. by intros (op & ?%elem_of_nil & _).
  - rewrite shard_had_failover_cons, orb_true_iff, andb_true_iff, IH.
    setoid_rewrite elem_of_cons. rewrite String.eqb_eq. split.
    + intros [[Hty Hop]|(op' & ? & ? & ?)]; [|eauto 6].
      exists op. destruct (operation_shard cluster_nodes op) as [s|]; [|done].
      apply Z.eqb_eq in Hop as ->. auto.
    + intros (op' & [->|Hin] & Hty & Hop); [|eauto 6].
      left. rewrite Hop. split; [done|]. apply Z.eqb_refl.
Qed.

(** X11. The two functions that read targets agree: a shard had an
    explicit failover exactly when it is in the affected set of the
    failover operations alone, with no node killed; so a shard that had
    one is always in the affected set of the run. *)
Theorem shard_had_failover_agrees_with_affected
    (shard_id : Z) (operations : list Operation) (killed : gset string)
    (cluster_nodes : list NodeInfo) :
  (_shard_had_failover shard_id operations cluster_nodes = true
   ↔ shard_id ∈ _get_affected_shards
                  (filter (λ op, Operation.type_value op = "failover") operations)
                  ∅ cluster_nodes)
  ∧ (_shard_had_failover shard_id operations cluster_nodes = true →
     shard_id ∈ _get_affected_shards operations killed cluster_nodes).
Proof.
  rewrite shard_had_failover_true, !elem_of_get_affected_shards. split.
  - setoid_rewrite list_elem_of_filter. split.
    + intros (op & ? & ? & ?). left. eauto.
    + intros [(op & [? ?] & ?)|(node & _ & ?%elem_of_empty & _)]; [eauto|done].
  - intros (op & ? & ? & ?). left. eauto.
Qed.

Lemma split_second_piece sep s piece0 piece1 pieces :
  Py.split sep s = piece0 :: piece1 :: pieces →
  ∃ rest, s = piece0 +:+ String sep rest.
Proof.
  revert piece0. induction s as [|c s IH]; intros piece0; [done|].
  cbn [Py.split]. destruct (Ascii.eqb_spec c sep) as [->|Hne].
  - intros [= <- _]. by exists s.
  - destruct (Py.split sep s) as [|h t] eqn:Hs; [done|].
    intros [= <- ->]. destruct (IH h eq_refl) as [rest ->]. by exists rest.
Qed.

(** X12. A target that contains ["shard-"] is never looked up in the
    tables of the topology: what the operation resolves to is the same
    for every topology; and when the target does not begin with
    ["shard-"] it resolves to nothing, so a node whose [node_id], port or
    cluster identifier contains ["shard-"] after other text cannot be
    named by it. *)
Theorem shard_targets_ignore_topology
    (cluster_nodes cluster_nodes' : list NodeInfo) (affected : gset Z)
    (op : Operation) (shard_id : Z) :
  Py.contains "shard-" (Operation.target_node op) = true →
  (affected_by_operation cluster_nodes affected op
   = affected_by_operation cluster_nodes' affected op
   ∧ _shard_had_failover shard_id [op] cluster_nodes
     = _shard_had_failover shard_id [op] cluster_nodes')
  ∧ (Py.startswith "shard-" (Operation.target_node op) = false →
     affected_by_operation cluster_nodes affected op = affected
     ∧ _shard_had_failover shard_id [op] cluster_nodes = false).
Proof.
  intros Hc. split.
  - unfold affected_by_operation. cbn [_shard_had_failover]. by rewrite Hc.
  - intros Hstart.
    assert (operation_shard cluster_nodes op = None) as Hop.
    { unfold operation_shard. rewrite Hc.
      destruct (Py.split "-" (Operation.target_node op))
        as [|piece0 [|piece1 [|piece2 pieces]]] eqn:Hs; try done.
      destruct (String.eqb_spec piece0 "shard") as [->|]; [|done].
      apply split_second_piece in Hs as [rest Hs]. by rewrite Hs in Hstart. }
    rewrite affected_by_operation_shard, shard_had_failover_cons, Hop.
    by rewrite andb_false_r.
Qed.

Lemma shard_targets_ignore_topology_witness :
  let op := Operation.mk "failover" "my-shard-1-primary" in
  let cluster_nodes :=
    [NodeInfo.mk "my-shard-1-primary" "10.0.0.8" 7007 None 1 "primary" "/logs/m.log"] in
  (affected_by_operation cluster_nodes ∅ op = affected_by_operation [] ∅ op
   ∧ _shard_had_failover 1 [op] cluster_nodes = _shard_had_failover 1 [op] [])
  ∧ (Py.startswith "shard-" (Operation.target_node op) = false →
     affected_by_operation cluster_nodes ∅ op = ∅
     ∧ _shard_had_failover 1 [op] cluster_nodes = false).
Proof.
  apply (shard_targets_ignore_topology
           [NodeInfo.mk "my-shard-1-primary" "10.0.0.8" 7007 None 1 "primary" "/logs/m.log"]
           [] ∅ (Operation.mk "failover" "my-shard-1-primary") 1).
  reflexivity.
Defined.

Lemma cluster_id_to_shard_lookup cluster_nodes id shard_id :
  cluster_id_to_shard cluster_nodes !! id = Some shard_id →
  ∃ node, node ∈ cluster_nodes ∧ NodeInfo.cluster_node_id node = Some id
          ∧ NodeInfo.shard_id node = shard_id.
Proof.
  unfold cluster_id_to_shard.
  induction cluster_nodes as [|last rest IH] using rev_ind;
    [simpl; by rewrite lookup_empty|].
  rewrite foldl_snoc. setoid_rewrite elem_of_app.
  setoid_rewrite list_elem_of_singleton.
  destruct (NodeInfo.cluster_node_id last) as [[|c id']|] eqn:Hlast;
    try (intros (node & ? & ? & ?)%IH; eauto 6).
  destruct (decide (String c id' = id)) as [<-|Hne].
  - rewrite lookup_insert_eq. intros [= <-]. eauto 6.
  - rewrite lookup_insert_ne by done. intros (node & ? & ? & ?)%IH; eauto 6.
Qed.

Lemma lookup_target_in_topology cluster_nodes target shard_id :
  lookup_target cluster_nodes target = Some shard_id →
  ∃ node, node ∈ cluster_nodes ∧ NodeInfo.shard_id node = shard_id
          ∧ (NodeInfo.node_id node = target
             ∨ Py.str (NodeInfo.port node) = target
             ∨ NodeInfo.cluster_node_id node = Some target).
Proof.
  unfold lookup_target, py_or.
  destruct (truthy_int (node_id_to_shard cluster_nodes !! target)).
  - cbn [truthy_int]. destruct (truthy_int (node_id_to_shard _ !! _)) eqn:Ht.
    + intros (node & ? & ? & ?)%table_lookup_Some. eauto 6.
    + intros (node & ? & ? & ?)%cluster_id_to_shard_lookup. eauto 7.
  - destruct (truthy_int (port_to_shard cluster_nodes !! target)).
    + intros (node & ? & ? & ?)%table_lookup_Some. eauto 7.
    + intros (node & ? & ? & ?)%cluster_id_to_shard_lookup. eauto 7.
Qed.

(** X13. A shard of the affected set that no node of the topology is in
    comes from an operation whose target contains ["shard-"]: the tables
    and the killed nodes give shards of the topology only. *)
Theorem affected_shard_outside_topology
    (operations : list Operation) (killed : gset string)
    (cluster_nodes : list NodeInfo) (shard_id : Z) :
  shard_id ∈ _get_affected_shards operations killed cluster_nodes →
  (∀ node, node ∈ cluster_nodes → NodeInfo.shard_id node ≠ shard_id) →
  ∃ op, op ∈ operations
        ∧ Py.contains "shard-" (Operation.target_node op) = true
        ∧ affected_by_operation cluster_nodes ∅ op = {[shard_id]}.
Proof.
  rewrite elem_of_get_affected_shards.
  intros [(op & Hin & Hop)|(node & Hin & _ & Hs)] Hout;
    [|by destruct (Hout node Hin)].
  exists op. split; [done|].
  rewrite affected_by_operation_shard, Hop, (left_id_L ∅ (∪)).
  split; [|done]. unfold operation_shard in Hop.
  destruct (Py.contains _ _); [done|].
  apply lookup_target_in_topology in Hop as (node & ? & ? & _).
  by destruct (Hout node).
Qed.

Lemma affected_shard_outside_topology_witness :
  ∃ op, op ∈ [Operation.mk "failover" "shard-7-primary"]
        ∧ Py.contains "shard-" (Operation.target_node op) = true
        ∧ affected_by_operation Sample.cluster ∅ op = {[7]}.
Proof.
  apply (affected_shard_outside_topology [Operation.mk "failover" "shard-7-primary"]
           Sample.killed Sample.cluster 7).
  - apply (bool_decide_unpack _). vm_compute. exact I.
  - intros node Hnode. unfold Sample.cluster in Hnode.
    repeat (apply elem_of_cons in Hnode as [->|Hnode]); try discriminate.
    by apply elem_of_nil in Hnode.
Defined.

(* ===================================================================== *)
(** * Further properties: the failover validation *)

Lemma first_shard_formation_elem fs node id :
  first_shard_formation
    (if os_path_exists fs (NodeInfo.log_file node)
     then _read_log_tail fs (NodeInfo.log_file node) 500 else []) = Ok (Some id) →
  os_path_exists fs (NodeInfo.log_file node) = true.
Proof. by destruct (os_path_exists _ _). Qed.

(** An entry of the table of Pass A was there before or is the shard of a
    node of the list. *)
Lemma shard_table_provenance fs affected_nodes table table' token shard_id :
  shard_table fs affected_nodes table = Ok table' →
  table' !! token = Some shard_id →
  table !! token = Some shard_id
  ∨ ∃ node, node ∈ affected_nodes ∧ NodeInfo.shard_id node = shard_id.
Proof.
  revert table. induction affected_nodes as [|node rest IH]; intros table.
  - intros [= <-]. auto.
  - cbn [shard_table].
    destruct (first_shard_formation _) as [[id|]|]; [| |done]; cbn [mbind result_bind].
    + intros Hrest Hlookup.
      destruct (IH _ Hrest Hlookup) as [Hin|(other & ? & ?)].
      * destruct (decide (id = token)) as [->|Hne].
        -- rewrite lookup_insert_eq in Hin. injection Hin as <-.
           right. exists node. split; [apply elem_of_cons; auto | done].
        -- rewrite lookup_insert_ne in Hin by done. auto.
      * right. exists other. split; [apply elem_of_cons; auto | done].
    + intros Hrest Hlookup.
      destruct (IH _ Hrest Hlookup) as [Hin|(other & ? & ?)]; [auto|].
      right. exists other. split; [apply elem_of_cons; auto | done].
Qed.

Lemma validate_failover_with_table fs affected_nodes :
  ∃ table, shard_table fs affected_nodes ∅ = Ok table
           ∧ _validate_failover fs affected_nodes
             = Ok (flat_map (validate_node fs table) affected_nodes).
Proof.
  unfold _validate_failover.
  destruct (shard_table_returns fs affected_nodes ∅) as [table Htable].
  exists table. by rewrite Htable.
Qed.

Lemma elem_of_promoted_shard_findings_table table node log_lines f :
  f ∈ promoted_shard_findings table node log_lines →
  ∃ expected line token,
    f = wrong_shard_finding node expected line
    ∧ line ∈ log_lines
    ∧ table !! token = Some expected
    ∧ expected ≠ NodeInfo.shard_id node.
Proof.
  induction log_lines as [|line rest IH]; cbn [promoted_shard_findings];
    [by intros ?%elem_of_nil|].
  assert (f ∈ promoted_shard_findings table node rest →
          ∃ expected line0 token,
            f = wrong_shard_finding node expected line0
            ∧ line0 ∈ line :: rest
            ∧ table !! token = Some expected
            ∧ expected ≠ NodeInfo.shard_id node) as Hrest.
  { intros (e & l & t & ? & ? & ? & ?)%IH. exists e, l, t.
    rewrite elem_of_cons. by split_and!; auto. }
  destruct (Re.search false self_promotion_pattern line) as [[m|]|]; [|done..].
  destruct (table !! Re.group1 m) as [expected|] eqn:Ht; [|by intros ?%elem_of_nil].
  destruct (expected =? NodeInfo.shard_id node) eqn:He; cbn [negb];
    [by intros ?%elem_of_nil|].
  intros ->%list_elem_of_singleton. apply Z.eqb_neq in He.
  exists expected, line, (Re.group1 m). rewrite elem_of_cons. by split_and!; auto.
Qed.

Lemma wrong_shard_message node expected line :
  Py.startswith "Node promoted to wrong shard"
    (LogFinding.message (wrong_shard_finding node expected line)) = true.
Proof. done. Qed.

Lemma wrong_shard_finding_in_node_findings fs table node f :
  f ∈ node_findings fs table node →
  Py.startswith "Node promoted to wrong shard" (LogFinding.message f) = true →
  String.eqb (NodeInfo.role node) "primary" = true
  ∧ ∃ expected line token,
      f = wrong_shard_finding node expected line
      ∧ line ∈ _read_log_tail fs (NodeInfo.log_file node) 200
      ∧ table !! token = Some expected
      ∧ expected ≠ NodeInfo.shard_id node.
Proof.
  unfold node_findings. rewrite !elem_of_app. intros [Hf|[Hf|Hf]] Hmsg.
  - destruct (String.eqb _ _); [|by apply elem_of_nil in Hf]. split; [done|].
    destruct (negb _).
    + apply list_elem_of_singleton in Hf. by subst f.
    + by apply elem_of_promoted_shard_findings_table.
  - destruct (negb _); [|by apply elem_of_nil in Hf].
    apply elem_of_first_match_findings in Hf as (_ & first & _ & _ & _ & ->). done.
  - apply elem_of_first_match_findings in Hf as (_ & first & _ & _ & _ & ->). done.
Qed.

Lemma wrong_shard_provenance fs affected_nodes findings f :
  _validate_failover fs affected_nodes = Ok findings →
  f ∈ findings →
  Py.startswith "Node promoted to wrong shard" (LogFinding.message f) = true →
  ∃ node other line,
    node ∈ affected_nodes ∧ other ∈ affected_nodes
    ∧ NodeInfo.role node = "primary"
    ∧ NodeInfo.shard_id other ≠ NodeInfo.shard_id node
    ∧ line ∈ _read_log_tail fs (NodeInfo.log_file node) 200
    ∧ f = wrong_shard_finding node (NodeInfo.shard_id other) line.
Proof.
  destruct (validate_failover_with_table fs affected_nodes) as (table & Htable & ->).
  intros [= <-] (node & Hnode & Hf)%elem_of_flat_map Hmsg.
  rewrite validate_node_closed in Hf.
  destruct (os_path_exists _ _); [|by apply elem_of_nil in Hf].
  destruct (wrong_shard_finding_in_node_findings _ _ _ _ Hf Hmsg)
    as (Hrole%String.eqb_eq & expected & line & token & -> & Hline & Ht & Hne).
  destruct (shard_table_provenance _ _ _ _ _ _ Htable Ht)
    as [Hempty|(other & Hother & <-)]; [by rewrite lookup_empty in Hempty|].
  exists node, other, line. by split_and!.
Qed.

(** X14. A wrong-shard finding of [_validate_failover] is about a primary
    of the list and cites, as the shard it was promoted to, the shard of
    another node of the list, different from its own: the validation of
    nodes that are all of one shard gives no wrong-shard finding. *)
Theorem wrong_shard_needs_two_shards
    (fs : filesystem) (affected_nodes : list NodeInfo)
    (findings : list LogFinding) (f : LogFinding) :
  _validate_failover fs affected_nodes = Ok findings →
  f ∈ findings →
  Py.startswith "Node promoted to wrong shard" (LogFinding.message f) = true →
  ∃ node other line,
    node ∈ affected_nodes ∧ other ∈ affected_nodes
    ∧ NodeInfo.role node = "primary"
    ∧ NodeInfo.shard_id other ≠ NodeInfo.shard_id node
    ∧ line ∈ _read_log_tail fs (NodeInfo.log_file node) 200
    ∧ f = wrong_shard_finding node (NodeInfo.shard_id other) line.
Proof. apply wrong_shard_provenance. Qed.

Lemma wrong_shard_needs_two_shards_witness :
  let f := wrong_shard_finding Sample.misplaced 3 Sample.set_primary_line in
  ∃ node other line,
    node ∈ [Sample.misplaced; Sample.owner] ∧ other ∈ [Sample.misplaced; Sample.owner]
    ∧ NodeInfo.role node = "primary"
    ∧ NodeInfo.shard_id other ≠ NodeInfo.shard_id node
    ∧ line ∈ _read_log_tail Sample.mixed_logs (NodeInfo.log_file node) 200
    ∧ f = wrong_shard_finding node (NodeInfo.shard_id other) line.
Proof.
  apply (wrong_shard_needs_two_shards Sample.mixed_logs
           [Sample.misplaced; Sample.owner]
           [wrong_shard_finding Sample.misplaced 3 Sample.set_primary_line]).
  - vm_compute. reflexivity.
  - apply list_elem_of_singleton. reflexivity.
  - reflexivity.
Defined.

(** ** In a run *)

Lemma failover_findings_elem fs cluster_nodes operations primary_killed shards
    findings f :
  failover_findings fs cluster_nodes operations primary_killed shards = Ok findings →
  f ∈ findings →
  ∃ shard_id findings_of_shard,
    shard_id ∈ shards
    ∧ (_shard_had_failover shard_id operations cluster_nodes = true
       ∨ shard_id ∈ primary_killed)
    ∧ _validate_failover fs
        (filter (λ n, NodeInfo.shard_id n = shard_id) cluster_nodes)
      = Ok findings_of_shard
    ∧ f ∈ findings_of_shard.
Proof.
  revert findings. induction shards as [|shard_id rest IH]; intros findings.
  - intros [= <-] ?%elem_of_nil. done.
  - cbn [failover_findings]. setoid_rewrite elem_of_cons.
    destruct (_ || _) eqn:Heligible.
    + destruct (_validate_failover fs _) as [here|] eqn:Hhere; [|done].
      cbn [mbind result_bind].
      destruct (failover_findings _ _ _ _ rest) as [later|]; [|done].
      intros [= <-]. rewrite elem_of_app. intros [Hf|Hf].
      * exists shard_id, here. split_and!; auto.
        apply orb_true_iff in Heligible as [?|?%bool_decide_eq_true]; auto.
      * destruct (IH _ eq_refl Hf) as (s & fs' & ? & ? & ? & ?). eauto 10.
    + cbn [mbind result_bind mret result_ret].
      destruct (failover_findings _ _ _ _ rest) as [later|]; [|done].
      intros [= <-] Hf.
      destruct (IH _ eq_refl Hf) as (s & fs' & ? & ? & ? & ?). eauto 10.
Qed.

(** X15. A run gives no wrong-shard finding: each shard is validated with
    the nodes of that shard only, so the table that translates Valkey
    shards holds that shard alone and the promoted node's shard is never
    found to differ. *)
Theorem run_gives_no_wrong_shard_finding
    (fs : filesystem) (set_iter : gset Z → list Z)
    (cluster_nodes : list NodeInfo) (operations : list Operation)
    (killed : gset string) (primary_killed : gset Z)
    (r : LogValidationResult) (f : LogFinding) :
  validate_affected_shards fs set_iter cluster_nodes operations killed primary_killed
  = Ok r →
  f ∈ LogValidationResult.findings r →
  Py.startswith "Node promoted to wrong shard" (LogFinding.message f) = false.
Proof.
  intros Hrun Hf.
  apply validate_affected_shards_inv in Hrun
    as (detection & failover & Hdet & Hfail & Hfindings & _).
  rewrite Hfindings, elem_of_app in Hf. destruct Hf as [Hf|Hf].
  - apply validate_failure_detection_closed in Hdet as [->|[_ ->]];
      [|by apply elem_of_nil in Hf].
    by apply detection_findings_shard in Hf as [addr ->].
  - destruct (failover_findings_elem _ _ _ _ _ _ _ Hfail Hf)
      as (shard_id & here & _ & _ & Hhere & Hin).
    destruct (Py.startswith _ _) eqn:Hmsg; [|done].
    destruct (wrong_shard_provenance _ _ _ _ Hhere Hin Hmsg)
      as (node & other & _ & [Hn _]%list_elem_of_filter
          & [Ho _]%list_elem_of_filter & _ & Hne & _).
    congruence.
Qed.

Lemma run_gives_no_wrong_shard_finding_witness :
  Py.startswith "Node promoted to wrong shard"
    (LogFinding.message (failover_error_finding Sample.loser Sample.expired_line))
  = false.
Proof.
  apply (run_gives_no_wrong_shard_finding Sample.logs elements Sample.cluster
           Sample.operations Sample.killed Sample.primary_killed Sample.outcome).
  - apply sample_run.
  - unfold Sample.outcome. cbn [LogValidationResult.findings].
    rewrite !elem_of_cons. auto.
Defined.

(** X16. The failover validation is made for the shards of the affected
    set that had an explicit failover or are among the shards with their
    primary killed, and for no other: every finding of a run that is not
    a failure-detection finding is one of the four failover findings of a
    node of such a shard whose log file exists. *)
Theorem failover_findings_of_eligible_shards_only
    (fs : filesystem) (set_iter : gset Z → list Z)
    (cluster_nodes : list NodeInfo) (operations : list Operation)
    (killed : gset string) (primary_killed : gset Z)
    (r : LogValidationResult) (f : LogFinding) :
  (∀ X, set_iter X ≡ₚ elements X) →
  validate_affected_shards fs set_iter cluster_nodes operations killed primary_killed
  = Ok r →
  f ∈ LogValidationResult.findings r →
  f = detection_finding (LogFinding.node_id f)
  ∨ ∃ node,
      node ∈ cluster_nodes
      ∧ failover_finding_of node f
      ∧ os_path_exists fs (NodeInfo.log_file node) = true
      ∧ NodeInfo.shard_id node ∈ _get_affected_shards operations killed cluster_nodes
      ∧ (_shard_had_failover (NodeInfo.shard_id node) operations cluster_nodes = true
         ∨ NodeInfo.shard_id node ∈ primary_killed).
Proof.
  intros Hiter Hrun Hf.
  apply validate_affected_shards_inv in Hrun
    as (detection & failover & Hdet & Hfail & Hfindings & _).
  rewrite Hfindings, elem_of_app in Hf. destruct Hf as [Hf|Hf].
  - left. apply validate_failure_detection_closed in Hdet as [->|[_ ->]];
      [|by apply elem_of_nil in Hf].
    by apply detection_findings_shard in Hf as [addr ->].
  - right.
    destruct (failover_findings_elem _ _ _ _ _ _ _ Hfail Hf)
      as (shard_id & here & Hshard & Heligible & Hhere & Hin).
    destruct (elem_of_validate_failover _ _ _ _ Hhere Hin)
      as (node & table & [Hs Hnode]%list_elem_of_filter & Hex & Hn).
    exists node. rewrite Hs. split_and!; try done.
    + by apply node_findings_kinds in Hn.
    + rewrite Hiter in Hshard. by apply elem_of_elements in Hshard.
Qed.

Lemma failover_findings_of_eligible_shards_only_witness :
  let f := failover_error_finding Sample.loser Sample.expired_line in
  f = detection_finding (LogFinding.node_id f)
  ∨ ∃ node,
      node ∈ Sample.cluster
      ∧ failover_finding_of node f
      ∧ os_path_exists Sample.logs (NodeInfo.log_file node) = true
      ∧ NodeInfo.shard_id node
        ∈ _get_affected_shards Sample.operations Sample.killed Sample.cluster
      ∧ (_shard_had_failover (NodeInfo.shard_id node) Sample.operations Sample.cluster
         = true
         ∨ NodeInfo.shard_id node ∈ Sample.primary_killed).
Proof.
  apply (failover_findings_of_eligible_shards_only Sample.logs elements Sample.cluster
           Sample.operations Sample.killed Sample.primary_killed Sample.outcome).
  - intros X. reflexivity.
  - apply sample_run.
  - unfold Sample.outcome. cbn [LogValidationResult.findings].
    rewrite !elem_of_cons. auto.
Defined.

(* ===================================================================== *)
(** * Further properties: counts and rendering *)

Lemma first_match_findings_length log_lines patterns finding :
  (length (first_match_findings log_lines patterns finding) ≤ length patterns)%nat.
Proof.
  unfold first_match_findings. induction patterns as [|pattern rest IH]; [done|].
  cbn [flat_map]. rewrite length_app. cbn [length].
  destruct (matching_lines pattern log_lines); cbn [length]; lia.
Qed.

Lemma promoted_shard_findings_length table node log_lines :
  (length (promoted_shard_findings table node log_lines) ≤ 1)%nat.
Proof.
  induction log_lines as [|line rest IH]; cbn [promoted_shard_findings]; [simpl; lia|].
  destruct (Re.search false self_promotion_pattern line) as [[m|]|]; try done.
  destruct (table !! Re.group1 m); [|simpl; lia].
  destruct (negb _); simpl; lia.
Qed.

Lemma validate_node_length fs table node :
  (length (validate_node fs table node) ≤ 5)%nat.
Proof.
  rewrite validate_node_closed. destruct (os_path_exists _ _); [|simpl; lia].
  unfold node_findings. rewrite !length_app.
  pose proof (first_match_findings_length
                (_read_log_tail fs (NodeInfo.log_file node) 200)
                failover_error_patterns (failover_error_finding node)) as He.
  pose proof (first_match_findings_length
                (_read_log_tail fs (NodeInfo.log_file node) 200)
                replication_issue_patterns (replication_issue_finding node)) as Hr.
  pose proof (promoted_shard_findings_length table node
                (_read_log_tail fs (NodeInfo.log_file node) 200)) as Hp.
  cbn [length failover_error_patterns replication_issue_patterns] in He, Hr.
  destruct (String.eqb _ _), (negb _); cbn [length]; lia.
Qed.

Lemma flat_map_length_bound {A B} (f : A → list B) (l : list A) (k : nat) :
  (∀ x, length (f x) ≤ k)%nat → (length (flat_map f l) ≤ k * length l)%nat.
Proof.
  intros Hf. induction l as [|x l IH]; [simpl; lia|].
  cbn [flat_map length]. rewrite length_app. specialize (Hf x). lia.
Qed.

(** X17. [_validate_failover] gives at most five findings for a node: one
    about the promotion, at most one for each of the three failover-error
    patterns, and one replication warning. *)
Theorem validate_failover_at_most_five_per_node
    (fs : filesystem) (affected_nodes : list NodeInfo) (findings : list LogFinding) :
  _validate_failover fs affected_nodes = Ok findings →
  (length findings ≤ 5 * length affected_nodes)%nat.
Proof.
  destruct (validate_failover_closed fs affected_nodes) as [table ->].
  intros [= <-]. apply flat_map_length_bound. intros node.
  apply validate_node_length.
Qed.

Lemma validate_failover_at_most_five_per_node_witness :
  (length [failover_error_finding Sample.loser Sample.expired_line]
   ≤ 5 * length [Sample.winner; Sample.loser])%nat.
Proof.
  apply (validate_failover_at_most_five_per_node Sample.logs).
  vm_compute. reflexivity.
Defined.

Lemma filter_shards_split (cluster_nodes : list NodeInfo) (shard_id : Z) (shards : list Z) :
  shard_id ∉ shards →
  length (filter (λ n, NodeInfo.shard_id n ∈ shard_id :: shards) cluster_nodes)
  = (length (filter (λ n, NodeInfo.shard_id n = shard_id) cluster_nodes)
     + length (filter (λ n, NodeInfo.shard_id n ∈ shards) cluster_nodes))%nat.
Proof.
  intros Hnew. induction cluster_nodes as [|node rest IH]; [done|].
  rewrite !filter_cons.
  destruct (decide (NodeInfo.shard_id node = shard_id)) as [Heq|Hne].
  - rewrite decide_True by (apply elem_of_cons; auto).
    rewrite decide_False by (by rewrite Heq). cbn [length]. lia.
  - destruct (decide (NodeInfo.shard_id node ∈ shards)) as [Hin|Hout].
    + rewrite decide_True by (apply elem_of_cons; auto). cbn [length]. lia.
    + rewrite decide_False by (rewrite elem_of_cons; tauto). done.
Qed.

Lemma failover_findings_length fs cluster_nodes operations primary_killed shards
    findings :
  NoDup shards →
  failover_findings fs cluster_nodes operations primary_killed shards = Ok findings →
  (length findings
   ≤ 5 * length (filter (λ n, NodeInfo.shard_id n ∈ shards) cluster_nodes))%nat.
Proof.
  intros Hnd. revert findings.
  induction Hnd as [|shard_id rest Hnew Hnd IH]; intros findings.
  - intros [= <-]. simpl. lia.
  - cbn [failover_findings]. rewrite (filter_shards_split _ _ _ Hnew).
    destruct (_ || _).
    + destruct (validate_failover_closed fs
                  (filter (λ n, NodeInfo.shard_id n = shard_id) cluster_nodes))
        as [table ->].
      cbn [mbind result_bind].
      destruct (failover_findings _ _ _ _ rest) as [later|]; [|done].
      specialize (IH later eq_refl).
      intros [= <-]. rewrite length_app.
      pose proof (flat_map_length_bound (validate_node fs table)
                    (filter (λ n, NodeInfo.shard_id n = shard_id) cluster_nodes) 5
                    (validate_node_length fs table)).
      lia.
    + cbn [mbind result_bind mret result_ret].
      destruct (failover_findings _ _ _ _ rest) as [later|]; [|done].
      specialize (IH later eq_refl).
      intros [= <-]. cbn [app]. lia.
Qed.

(** X18. A run validates a node at most once: its findings are no more
    than one for each killed address and five for each node of the
    topology. *)
Theorem run_findings_bounded
    (fs : filesystem) (set_iter : gset Z → list Z)
    (cluster_nodes : list NodeInfo) (operations : list Operation)
    (killed : gset string) (primary_killed : gset Z) (r : LogValidationResult) :
  (∀ X, set_iter X ≡ₚ elements X) →
  validate_affected_shards fs set_iter cluster_nodes operations killed primary_killed
  = Ok r →
  (length (LogValidationResult.findings r)
   ≤ size killed + 5 * length cluster_nodes)%nat.
Proof.
  intros Hiter Hrun.
  apply validate_affected_shards_inv in Hrun
    as (detection & failover & Hdet & Hfail & -> & _).
  rewrite length_app.
  assert (length detection ≤ size killed)%nat.
  { apply validate_failure_detection_closed in Hdet as [->|[_ ->]]; [|simpl; lia].
    etrans; [apply sublist_length, detection_findings_sublist|].
    rewrite length_fmap, <- (length_fmap fst). unfold size, set_size. cbn.
    apply submseteq_length, NoDup_submseteq; [apply killed_node_ids_NoDup|].
    intros addr ([a id] & -> & Hin)%list_elem_of_fmap.
    apply elem_of_elements. by apply killed_node_ids_provenance in Hin as [? _]. }
  apply failover_findings_length in Hfail;
    [|rewrite Hiter; apply NoDup_elements].
  pose proof (length_filter
                (λ n, NodeInfo.shard_id n
                      ∈ set_iter (_get_affected_shards operations killed cluster_nodes))
                cluster_nodes).
  lia.
Qed.

Lemma run_findings_bounded_witness :
  (length (LogValidationResult.findings Sample.outcome)
   ≤ size Sample.killed + 5 * length Sample.cluster)%nat.
Proof.
  apply (run_findings_bounded Sample.logs elements Sample.cluster Sample.operations
           Sample.killed Sample.primary_killed Sample.outcome).
  - intros X. reflexivity.
  - apply sample_run.
Defined.

Lemma count_severities (findings : list LogFinding) :
  (∀ f, f ∈ findings →
        LogFinding.severity f = "error" ∨ LogFinding.severity f = "warning") →
  (count_severity "error" findings + count_severity "warning" findings
   = length findings)%nat.
Proof.
  unfold count_severity. induction findings as [|f rest IH]; [done|]. intros Hall.
  rewrite !filter_cons.
  specialize (IH (λ g Hg, Hall g (proj2 (elem_of_cons _ _ _) (or_intror Hg)))).
  destruct (Hall f) as [Hf|Hf]; [apply elem_of_cons; auto|..]; rewrite Hf.
  - rewrite decide_True, decide_False by done. cbn [length]. lia.
  - rewrite decide_False, decide_True by done. cbn [length]. lia.
Qed.

Lemma failover_finding_severity node f :
  failover_finding_of node f →
  LogFinding.severity f = "error" ∨ LogFinding.severity f = "warning".
Proof. intros [->|[(e & l & ->)|[(l & ->)|(l & ->)]]]; auto. Qed.

Lemma run_severities fs set_iter cluster_nodes operations killed primary_killed r f :
  validate_affected_shards fs set_iter cluster_nodes operations killed primary_killed
  = Ok r →
  f ∈ LogValidationResult.findings r →
  LogFinding.severity f = "error" ∨ LogFinding.severity f = "warning".
Proof.
  intros Hrun Hf.
  apply validate_affected_shards_inv in Hrun
    as (detection & failover & Hdet & Hfail & Hfindings & _).
  rewrite Hfindings, elem_of_app in Hf. destruct Hf as [Hf|Hf].
  - apply validate_failure_detection_closed in Hdet as [->|[_ ->]];
      [|by apply elem_of_nil in Hf].
    apply detection_findings_shard in Hf as [addr ->]. by left.
  - destruct (failover_findings_from_nodes _ _ _ _ _ _ _ Hfail Hf)
      as (node & table & _ & Hn).
    by apply validate_node_kinds, failover_finding_severity in Hn.
Qed.

(** X19. On the result of a run, [__str__] is decided by the counts of
    the findings: every finding is an [error] or a [warning], so the two
    counts add up to the number of findings; with no error the text is
    the one of success with the number of affected shards, and otherwise
    the text of failure, whose count of errors is then not 0. *)
Theorem str_of_a_run
    (fs : filesystem) (set_iter : gset Z → list Z)
    (cluster_nodes : list NodeInfo) (operations : list Operation)
    (killed : gset string) (primary_killed : gset Z) (r : LogValidationResult) :
  validate_affected_shards fs set_iter cluster_nodes operations killed primary_killed
  = Ok r →
  let errors := count_severity "error" (LogValidationResult.findings r) in
  let warnings := count_severity "warning" (LogValidationResult.findings r) in
  (errors + warnings = length (LogValidationResult.findings r))%nat
  ∧ __str__ r
    = match errors with
      | O => "Log validation passed (" +:+
             Py.str (Z.of_nat (size (_get_affected_shards operations killed cluster_nodes)))
             +:+ " shards checked)"
      | _ => "Log validation failed: " +:+ Py.str (Z.of_nat errors) +:+ " errors, " +:+
             Py.str (Z.of_nat warnings) +:+ " warnings"
      end.
Proof.
  intros Hrun errors warnings. split.
  - apply count_severities. intros f. by eapply run_severities.
  - apply validate_affected_shards_inv in Hrun
      as (detection & failover & _ & _ & Hfindings & Hsuccess & Hchecked).
    unfold __str__. rewrite Hsuccess, Hchecked, <- Hfindings.
    fold (count_severity "error" (LogValidationResult.findings r)).
    fold errors. fold warnings. by destruct errors.
Qed.

Lemma str_of_a_run_witness :
  let errors := count_severity "error" (LogValidationResult.findings Sample.outcome) in
  let warnings := count_severity "warning" (LogValidationResult.findings Sample.outcome) in
  (errors + warnings = length (LogValidationResult.findings Sample.outcome))%nat
  ∧ __str__ Sample.outcome
    = match errors with
      | O => "Log validation passed (" +:+
             Py.str (Z.of_nat (size (_get_affected_shards Sample.operations
                                       Sample.killed Sample.cluster)))
             +:+ " shards checked)"
      | _ => "Log validation failed: " +:+ Py.str (Z.of_nat errors) +:+ " errors, " +:+
             Py.str (Z.of_nat warnings) +:+ " warnings"
      end.
Proof.
  apply (str_of_a_run Sample.logs elements Sample.cluster Sample.operations
           Sample.killed Sample.primary_killed Sample.outcome).
  apply sample_run.
Defined.

Example str_of_the_sample_run :
  __str__ Sample.outcome = "Log validation failed: 2 errors, 2 warnings".
Proof. vm_compute. reflexivity. Qed.

(* ===================================================================== *)
(** * Further properties: what the failover validation of a node reads *)

(** X20. The warning that a primary shows no promotion is given once, to
    a node whose role is [primary], whose log file exists, and whose
    200-line tail matches no promotion-success pattern; a replica, a
    promoted primary and a node without a log file never get it, and a
    primary whose log exists and cannot be read, or is empty, does. *)
Theorem no_promotion_warning_condition
    (fs : filesystem) (table : gmap string Z) (node : NodeInfo) :
  ∃ promoted,
    any_has_pattern (_read_log_tail fs (NodeInfo.log_file node) 200)
      failover_promotion_patterns = Ok promoted
    ∧ filter (λ f, LogFinding.message f
                   = "Primary has no failover promotion messages in recent logs")
             (validate_node fs table node)
      = if os_path_exists fs (NodeInfo.log_file node)
           && String.eqb (NodeInfo.role node) "primary" && negb promoted
        then [no_promotion_finding node] else [].
Proof.
  exists (has_promotion (_read_log_tail fs (NodeInfo.log_file node) 200)).
  split; [apply (any_has_pattern_compiled _ _ promotion_patterns_compile)|].
  rewrite validate_node_closed. destruct (os_path_exists _ _); [|done].
  unfold node_findings. rewrite !filter_app.
  match goal with |- ?a ++ ?b ++ ?c = _ =>
    assert (b = []) as ->; [|assert (c = []) as ->] end.
  - apply filter_none. intros f Hf.
    destruct (negb _); [|by apply elem_of_nil in Hf].
    apply elem_of_first_match_findings in Hf as (_ & first & _ & _ & _ & ->). done.
  - apply filter_none. intros f Hf.
    apply elem_of_first_match_findings in Hf as (_ & first & _ & _ & _ & ->). done.
  - rewrite !app_nil_r. cbn [andb].
    destruct (String.eqb _ _); [|done]. destruct (negb _); cbn [andb].
    + rewrite filter_cons. by case_decide.
    + apply filter_none. intros f Hf.
      apply elem_of_promoted_shard_findings in Hf as (e & l & ->). done.
Qed.

Lemma last_n_of_last_n {A} (n m : nat) (l : list A) :
  (0 < n ≤ m)%nat → Py.last_n n (Py.last_n m l) = Py.last_n n l.
Proof.
  intros [Hn Hnm]. unfold Py.last_n.
  destruct (Nat.ltb_spec m (length l)) as [Hm|Hm]; [|done].
  destruct m as [|m]; [lia|]. destruct n as [|n]; [lia|].
  rewrite length_drop.
  rewrite (proj2 (Nat.ltb_lt (S n) (length l))) by lia.
  destruct (Nat.ltb_spec (S n) (length l - (length l - S m))) as [Hlt|Hge].
  - rewrite drop_drop. f_equal; lia.
  - assert (n = m) as -> by lia. f_equal; lia.
Qed.

Lemma read_log_tail_200_of_500 fs log_file :
  _read_log_tail fs log_file 200 = Py.last_n 200 (_read_log_tail fs log_file 500).
Proof.
  unfold _read_log_tail. destruct (fs log_file) as [| |all_lines]; try done.
  by rewrite last_n_of_last_n by lia.
Qed.

(** X21. [_validate_failover] reads, of each node of the list, whether
    its log file exists and the last 500 lines of it, and nothing else:
    two file systems that agree on these give the same findings, so a
    line older than the last 500 is never seen. *)
Theorem validate_failover_reads_the_tails_only
    (fs fs' : filesystem) (affected_nodes : list NodeInfo) :
  (∀ node, node ∈ affected_nodes →
     os_path_exists fs (NodeInfo.log_file node)
     = os_path_exists fs' (NodeInfo.log_file node)
     ∧ _read_log_tail fs (NodeInfo.log_file node) 500
       = _read_log_tail fs' (NodeInfo.log_file node) 500) →
  _validate_failover fs affected_nodes = _validate_failover fs' affected_nodes.
Proof.
  intros Hsame. unfold _validate_failover.
  assert (∀ table, shard_table fs affected_nodes table
                   = shard_table fs' affected_nodes table) as ->.
  { induction affected_nodes as [|node rest IH]; intros table; [done|].
    cbn [shard_table]. destruct (Hsame node) as [-> ->]; [apply elem_of_cons; auto|].
    destruct (first_shard_formation _) as [[id|]|]; cbn [mbind result_bind];
      try done; apply IH; intros n Hn; apply Hsame, elem_of_cons; auto. }
  destruct (shard_table fs' affected_nodes ∅) as [table|]; [|done].
  cbn [mbind result_bind mret result_ret]. f_equal.
  induction affected_nodes as [|node rest IH]; [done|].
  cbn [flat_map]. rewrite IH by (intros n Hn; apply Hsame, elem_of_cons; auto).
  f_equal. unfold validate_node, check_node.
  destruct (Hsame node) as [Hex Htail]; [apply elem_of_cons; auto|].
  by rewrite Hex, !read_log_tail_200_of_500, Htail.
Qed.

Lemma validate_failover_reads_the_tails_only_witness :
  _validate_failover Sample.long_log [Sample.buried]
  = _validate_failover Sample.recent_log [Sample.buried].
Proof.
  apply validate_failover_reads_the_tails_only.
  intros node ->%list_elem_of_singleton. split; vm_compute; reflexivity.
Defined.

(** A promotion line older than the last 200 lines is not seen. *)
Example buried_promotion_is_not_seen :
  _validate_failover Sample.long_log [Sample.buried]
  = Ok [no_promotion_finding Sample.buried].
Proof. vm_compute. reflexivity. Qed.

(* ===================================================================== *)
(** * Further properties: runs at the edges *)

(** X22. A run with no operation and no killed node checks no shard and
    finds nothing, whatever the topology, the logs and the set of shards
    with their primary killed are: that set alone makes no shard
    affected. *)
Theorem run_without_operations_and_kills
    (fs : filesystem) (set_iter : gset Z → list Z)
    (cluster_nodes : list NodeInfo) (primary_killed : gset Z) :
  (∀ X, set_iter X ≡ₚ elements X) →
  validate_affected_shards fs set_iter cluster_nodes [] ∅ primary_killed
  = Ok (LogValidationResult.mk true [] 0).
Proof.
  intros Hiter. unfold validate_affected_shards, _get_affected_shards. cbn [foldl].
  rewrite affected_by_chaos_none.
  assert (set_iter ∅ = []) as ->.
  { apply Permutation_nil_r. by rewrite Hiter, elements_empty. }
  unfold _validate_failure_detection. rewrite bool_decide_true by done.
  by rewrite size_empty.
Qed.

Lemma run_without_operations_and_kills_witness :
  validate_affected_shards Sample.logs elements Sample.cluster [] ∅ Sample.primary_killed
  = Ok (LogValidationResult.mk true [] 0).
Proof.
  apply run_without_operations_and_kills. intros X. reflexivity.
Defined.

(** X23. A run returns a result, and raises nothing, on every topology
    whose cluster identifiers are made of letters and digits, whatever
    the logs, the operations and the killed nodes are: the only pattern
    built from the input is then a valid one. *)
Theorem run_returns_on_alphanumeric_identifiers
    (fs : filesystem) (set_iter : gset Z → list Z)
    (cluster_nodes : list NodeInfo) (operations : list Operation)
    (killed : gset string) (primary_killed : gset Z) :
  (∀ node id, node ∈ cluster_nodes → NodeInfo.cluster_node_id node = Some id →
              plain id) →
  ∃ r, validate_affected_shards fs set_iter cluster_nodes operations killed
         primary_killed = Ok r.
Proof. apply validate_affected_shards_returns. Qed.

Lemma run_returns_on_alphanumeric_identifiers_witness :
  ∃ r, validate_affected_shards Sample.logs elements Sample.cluster Sample.operations
         Sample.killed Sample.primary_killed = Ok r.
Proof.
  apply run_returns_on_alphanumeric_identifiers.
  intros node id Hnode Hid. unfold Sample.cluster in Hnode.
  repeat (apply elem_of_cons in Hnode as [->|Hnode]);
    try (by apply elem_of_nil in Hnode);
    injection Hid as <-; by repeat constructor.
Defined.
